(** * Enhanced Telegram video downloader bot: a shallow embedding

    This development models [src/enhanced_video_bot.py]: the URL platform
    classifier ([get_platform_type], [is_video_platform]), the acquisition
    chain ([download_video] and its strategy wrappers), the file splitter
    ([split_large_file]), the split step of the message handler and the
    workspace cleanup ([cleanup_all]).

    The effects of the Python code (files on disk, exceptions, external
    processes and HTTP responses) are threaded explicitly: a [World] holds the
    file system and the log of attempted download strategies, the monad [M]
    passes it along and carries Python exceptions, and the behaviour of the
    outside world (external tools, HTTP servers, the clock) is an [Oracle]. *)

From Stdlib Require Import ZArith Lia Ascii.
From Stdlib Require Import DecimalString DecimalNat.
From stdpp Require Import base list gmap sets strings.

Open Scope Z_scope.

(** ** Bytes, exceptions and the world *)

Abbreviation bytes := (list Byte.byte).

(** The Python exceptions the modelled code can raise or catch. *)
Inductive exn :=
  | OSError (path : string)         (* missing file, permission denied *)
  | ValueError (msg : string)       (* urllib.parse: "Invalid IPv6 URL" *)
  | Exception (msg : string).       (* raise Exception(...) *)

Inductive res (A : Type) :=
  | Ok (a : A)
  | Err (e : exn).
Arguments Ok {A} a.
Arguments Err {A} e.

(** The download strategies of the acquisition chain, one per wrapper. *)
Inductive strategy :=
  | YtDlp          (* download_with_ytdlp *)
  | YoutubeDl      (* download_with_youtubedl *)
  | Instaloader    (* download_with_instaloader *)
  | EnhancedDirect (* download_direct_with_enhanced_headers *)
  | Direct.        (* download_direct *)

#[global] Instance strategy_eq_dec : EqDecision strategy.
Proof. solve_decision. Defined.

(** The file system: regular files with their bytes, the directories that
    were created, and the paths the process has no permission to create,
    overwrite or remove.  [attempts] logs every strategy wrapper that ran,
    with the path it returned. *)
Record World := mkWorld {
  files : gmap string bytes;
  dirs : gset string;
  locked : gset string;
  attempts : list (strategy * option string)
}.

(** ** The state and exception monad *)

Definition M (A : Type) := World -> res A * World.

Definition ret {A} (a : A) : M A := fun w => (Ok a, w).
Definition raise {A} (e : exn) : M A := fun w => (Err e, w).
Definition bind {A B} (m : M A) (k : A -> M B) : M B :=
  fun w => match m w with
           | (Ok a, w') => k a w'
           | (Err e, w') => (Err e, w')
           end.
(** [try m except e: h e]: the effects of [m] up to the exception stay. *)
Definition catch {A} (m : M A) (h : exn -> M A) : M A :=
  fun w => match m w with
           | (Err e, w') => h e w'
           | r => r
           end.
Definition lift {A} (r : res A) : M A :=
  match r with Ok a => ret a | Err e => raise e end.

Notation "'let*' x ':=' m 'in' k" := (bind m (fun x => k))
  (at level 200, x name, m at level 100, right associativity).
Notation "m ;; k" := (bind m (fun _ => k)) (at level 100, right associativity).

(** ** File system primitives *)

(** [os.path.exists] *)
Definition path_exists (p : string) (w : World) : bool :=
  bool_decide (p ∈ dirs w) || bool_decide (is_Some (files w !! p)).

Definition exists_ (p : string) : M bool := fun w => (Ok (path_exists p w), w).

(** [os.path.getsize] *)
Definition getsize (p : string) : M Z := fun w =>
  match files w !! p with
  | Some d => (Ok (Z.of_nat (length d)), w)
  | None => (Err (OSError p), w)
  end.

(** [open(p, 'rb')]: fails when there is no such file. *)
Definition open_read (p : string) : M unit := fun w =>
  match files w !! p with
  | Some _ => (Ok tt, w)
  | None => (Err (OSError p), w)
  end.

(** [f.read(n)] on a binary file positioned at [pos]: [n] bytes at most, all
    remaining bytes for a negative [n]. *)
Definition py_read (d : bytes) (pos n : Z) : bytes :=
  if n <? 0 then drop (Z.to_nat pos) d
  else take (Z.to_nat n) (drop (Z.to_nat pos) d).

Definition read_at (p : string) (pos n : Z) : M bytes := fun w =>
  match files w !! p with
  | Some d => (Ok (py_read d pos n), w)
  | None => (Err (OSError p), w)
  end.

(** [with open(p, 'wb') as f: f.write(d)]: a write-protected path raises
    before anything is written. *)
Definition write_file (p : string) (d : bytes) : M unit := fun w =>
  if bool_decide (p ∈ locked w) then (Err (OSError p), w)
  else (Ok tt, mkWorld (<[p := d]> (files w)) (dirs w) (locked w) (attempts w)).

(** [os.makedirs(p, exist_ok=True)]: nothing to do when [p] is a directory
    already; a regular file at [p] ([FileExistsError]) or a path the process
    cannot create ([PermissionError], or any [OSError] such as a full disk)
    raises. *)
Definition makedirs (p : string) : M unit := fun w =>
  if bool_decide (p ∈ dirs w) then (Ok tt, w)
  else if bool_decide (p ∈ locked w) || bool_decide (is_Some (files w !! p))
  then (Err (OSError p), w)
  else (Ok tt, mkWorld (files w) ({[p]} ∪ dirs w) (locked w) (attempts w)).

(** ** Strings *)

Fixpoint str_take (n : nat) (s : string) : string :=
  match n, s with
  | O, _ => ""
  | _, EmptyString => ""
  | S n', String c s' => String c (str_take n' s')
  end.

Fixpoint str_drop (n : nat) (s : string) : string :=
  match n, s with
  | O, _ => s
  | _, EmptyString => ""
  | S n', String c s' => str_drop n' s'
  end.

(** [s.rfind(c)], [None] standing for -1. *)
Fixpoint rfind_from (c : ascii) (s : string) (i : nat) (acc : option nat)
    : option nat :=
  match s with
  | EmptyString => acc
  | String a s' =>
      rfind_from c s' (S i) (if Ascii.eqb a c then Some i else acc)
  end.
Definition rfind (c : ascii) (s : string) : option nat := rfind_from c s 0 None.

Fixpoint has_non_dot (s : string) : bool :=
  match s with
  | EmptyString => false
  | String a s' => negb (Ascii.eqb a ".") || has_non_dot s'
  end.

(** [os.path.splitext] (posixpath / genericpath._splitext): the extension
    starts at the last dot of the last path component, unless that component
    has only dots before it. *)
Definition splitext (p : string) : string * string :=
  match rfind "." p with
  | Some dot =>
      let lo := match rfind "/" p with Some s => S s | None => O end in
      if Nat.leb lo dot && has_non_dot (str_drop lo (str_take dot p))
      then (str_take dot p, str_drop dot p)
      else (p, "")
  | None => (p, "")
  end.

(** [f"{n:03d}"]: decimal digits, zero-padded on the left to width 3. *)
Definition fmt03 (n : nat) : string :=
  let d := Nat.to_uint n in
  NilEmpty.string_of_uint (Nat.iter (3 - Decimal.nb_digits d) Decimal.D0 d).

(** [f"{base_name}_part{chunk_num:03d}{extension}"] *)
Definition chunk_path (base_name : string) (chunk_num : nat) (extension : string)
    : string :=
  base_name +:+ "_part" +:+ fmt03 chunk_num +:+ extension.

(** ** Configuration *)

Definition MAX_FILE_SIZE : Z := 50 * 1024 * 1024.
Definition CHUNK_SIZE : Z := 1024 * 1024.

(** ** [EnhancedVideoDownloader.split_large_file] *)

(** The [while True] loop.  Every non-empty read moves the position forward,
    so [length d + 1] rounds always reach the empty read that ends it. *)
Fixpoint split_loop (fuel : nat) (file_path base_name extension : string)
    (chunk_size pos : Z) (chunk_num : nat) (chunks : list string)
    : M (list string) :=
  match fuel with
  | O => ret chunks
  | S fuel' =>
      let* chunk_data := read_at file_path pos chunk_size in
      match chunk_data with
      | [] => ret chunks
      | _ :: _ =>
          let p := chunk_path base_name chunk_num extension in
          write_file p chunk_data ;;
          split_loop fuel' file_path base_name extension chunk_size
            (pos + Z.of_nat (length chunk_data)) (S chunk_num) (chunks ++ [p])
      end
  end.

(** The body of the [try] block. *)
Definition split_body (file_path : string) (chunk_size : Z) : M (list string) :=
  let* file_size := getsize file_path in
  if file_size <=? MAX_FILE_SIZE then ret [file_path]
  else
    let '(base_name, extension) := splitext file_path in
    open_read file_path ;;
    split_loop (S (Z.to_nat file_size)) file_path base_name extension
      chunk_size 0 0 [].

Definition split_large_file (file_path : string) (chunk_size : Z)
    : M (list string) :=
  catch (split_body file_path chunk_size) (fun _ => ret [file_path]).

(** Reference functions for the proofs: the blocks a file is cut into, and
    the writes of those blocks in order. *)
Fixpoint chunks_fuel (fuel : nat) (c : nat) (l : bytes) : list bytes :=
  match fuel with
  | O => []
  | S fuel' =>
      match take c l with
      | [] => []
      | ch => ch :: chunks_fuel fuel' c (drop c l)
      end
  end.

Fixpoint write_parts (base_name extension : string) (n : nat) (ps : list bytes)
    (acc : list string) : M (list string) :=
  match ps with
  | [] => ret acc
  | p :: ps' =>
      write_file (chunk_path base_name n extension) p ;;
      write_parts base_name extension (S n) ps'
        (acc ++ [chunk_path base_name n extension])
  end.

(** The blocks [split_large_file] cuts [d] into, and the name of part [i]. *)
Definition split_blocks (chunk_size : Z) (d : bytes) : list bytes :=
  chunks_fuel (S (length d)) (Z.to_nat chunk_size) d.

Definition part_name (file_path : string) (i : nat) : string :=
  chunk_path (splitext file_path).1 i (splitext file_path).2.

(** ** The split step of the [download_video] message handler

    [file_size = os.path.getsize(file_path)]; over [MAX_FILE_SIZE] the handler
    calls [downloader.split_large_file(file_path, MAX_FILE_SIZE)] and sends the
    parts, otherwise it sends [file_path] itself. *)
Definition handler_split_step (file_path : string) : M (list string) :=
  let* file_size := getsize file_path in
  if MAX_FILE_SIZE <? file_size then split_large_file file_path MAX_FILE_SIZE
  else ret [file_path].

(** ** Sample inputs *)

Definition sample_path : string := "/tmp/tmpq1w2e3/downloads/1700000000/clip.mp4".

(** A world holding one file [p] with bytes [d], write-protected paths [lk]. *)
Definition world_with (p : string) (d : bytes) (lk : gset string) : World :=
  mkWorld (<[p := d]> ∅) ∅ lk [].

(** One byte over the delivery limit (the test suite writes [b'0'] bytes). *)
Definition big_file : bytes := repeat Byte.x30 (Z.to_nat (MAX_FILE_SIZE + 1)).

(** ** Python string operations *)

(** [needle in hay] *)
Fixpoint contains (needle hay : string) : bool :=
  String.prefix needle hay
  || match hay with
     | EmptyString => false
     | String _ hay' => contains needle hay'
     end.

(** [s.endswith(suffix)] *)
Definition endswith (s suffix : string) : bool :=
  Nat.leb (String.length suffix) (String.length s)
  && String.eqb (str_drop (String.length s - String.length suffix) s) suffix.

(** [str.lower] on ASCII text. *)
Definition lower_char (c : ascii) : ascii :=
  let n := nat_of_ascii c in
  if Nat.leb 65 n && Nat.leb n 90 then ascii_of_nat (n + 32) else c.

Fixpoint lower (s : string) : string :=
  match s with
  | EmptyString => EmptyString
  | String c s' => String (lower_char c) (lower s')
  end.

(** [s.find(c)], [None] standing for -1. *)
Fixpoint find_char (c : ascii) (s : string) : option nat :=
  match s with
  | EmptyString => None
  | String a s' => if Ascii.eqb a c then Some O else option_map S (find_char c s')
  end.

Fixpoint str_forallb (f : ascii -> bool) (s : string) : bool :=
  match s with
  | EmptyString => true
  | String c s' => f c && str_forallb f s'
  end.

(** ** [urllib.parse.urlsplit], as far as the netloc *)

(** [_WHATWG_C0_CONTROL_OR_SPACE]: the characters [\x00] to [\x20]. *)
Definition c0_control_or_space (c : ascii) : bool := Nat.leb (nat_of_ascii c) 32.

(** [url.lstrip(_WHATWG_C0_CONTROL_OR_SPACE)] *)
Fixpoint lstrip_c0 (s : string) : string :=
  match s with
  | EmptyString => EmptyString
  | String c s' => if c0_control_or_space c then lstrip_c0 s' else s
  end.

(** [_UNSAFE_URL_BYTES_TO_REMOVE = ['\t', '\r', '\n']] *)
Definition unsafe_url_byte (c : ascii) : bool :=
  Ascii.eqb c "009"%char || Ascii.eqb c "013"%char || Ascii.eqb c "010"%char.

Fixpoint remove_unsafe (s : string) : string :=
  match s with
  | EmptyString => EmptyString
  | String c s' => if unsafe_url_byte c then remove_unsafe s' else String c (remove_unsafe s')
  end.

Definition is_ascii_alpha (c : ascii) : bool :=
  let n := nat_of_ascii c in
  (Nat.leb 65 n && Nat.leb n 90) || (Nat.leb 97 n && Nat.leb n 122).

Definition is_ascii_digit (c : ascii) : bool :=
  let n := nat_of_ascii c in Nat.leb 48 n && Nat.leb n 57.

(** [scheme_chars]: ASCII letters, digits and [+-.] *)
Definition scheme_char (c : ascii) : bool :=
  is_ascii_alpha c || is_ascii_digit c
  || Ascii.eqb c "+" || Ascii.eqb c "-" || Ascii.eqb c ".".

(** [_splitnetloc(url, 2)]: the netloc ends at the first [/], [?] or [#]. *)
Fixpoint take_netloc (s : string) : string :=
  match s with
  | EmptyString => EmptyString
  | String c s' =>
      if Ascii.eqb c "/" || Ascii.eqb c "?" || Ascii.eqb c "#" then EmptyString
      else String c (take_netloc s')
  end.

(** ** The outside world of the acquisition chain *)

(** [subprocess.run([tool, ..., url], timeout=300)]: [returncode] is [None]
    when the run raises [TimeoutExpired]; [output_files] are the files the
    tool leaves in its output directory, whatever its exit status. *)
Record tool_result := mkToolResult {
  returncode : option Z;
  output_files : list (string * bytes)
}.

(** [requests.get(url, headers=..., stream=True, timeout=...)]: [status_code]
    is [None] when the request raises (connection error, timeout);
    [content_length_ok] tells whether [int(response.headers.get(
    'content-length', 0))] succeeds; [body] are the chunks [iter_content]
    yields and [stream_broken] whether it raises after them. *)
Record response := mkResponse {
  status_code : option Z;
  content_length_ok : bool;
  body : list bytes;
  stream_broken : bool
}.

(** The behaviour of the outside world during one [download_video] call. *)
Record Oracle := mkOracle {
  tool_works : strategy -> bool;                 (* [<tool> --version] exits with 0 *)
  run_tool : strategy -> string -> tool_result;  (* the download run on a URL *)
  http_get : strategy -> string -> response;     (* the headers differ per strategy *)
  clock : Z                                      (* [int(time.time())] *)
}.

(** ** Paths and directory listings *)

(** [os.path.join(a, b)] *)
Definition path_join (a b : string) : string :=
  if String.prefix "/" b then b
  else if String.eqb a "" || endswith a "/" then a +:+ b
  else a +:+ "/" +:+ b.

(** What [os.path.join(a, name)] puts before a name that does not start
    with [/]. *)
Definition dir_prefix (a : string) : string :=
  if String.eqb a "" || endswith a "/" then a else a +:+ "/".

Fixpoint strip_prefix (pre s : string) : option string :=
  match pre, s with
  | EmptyString, _ => Some s
  | String a pre', String b s' => if Ascii.eqb a b then strip_prefix pre' s' else None
  | String _ _, EmptyString => None
  end.

(** The name under which [os.listdir(dir)] lists the path [q], if [q] lies
    right inside [dir]. *)
Definition entry_name (dir q : string) : option string :=
  match strip_prefix (dir_prefix dir) q with
  | Some n => if negb (String.eqb n "") && negb (contains "/" n) then Some n else None
  | None => None
  end.

(** [os.listdir(dir)]: the files, then the directories, right inside [dir],
    in the order of the file system (here that of the maps). *)
Definition listdir (dir : string) : M (list string) := fun w =>
  if bool_decide (dir ∈ dirs w) then
    (Ok (omap (fun kv : string * bytes => entry_name dir kv.1) (map_to_list (files w))
         ++ omap (entry_name dir) (elements (dirs w))), w)
  else (Err (OSError dir), w).

(** The files an external tool leaves in [dir]. *)
Definition tool_writes (dir : string) (out : list (string * bytes)) : M unit := fun w =>
  (Ok tt, mkWorld (foldr (fun nd m => <[path_join dir nd.1 := nd.2]> m) (files w) out)
            (dirs w) (locked w) (attempts w)).

(** [str(int(...))] *)
Definition str_int (z : Z) : string := NilEmpty.string_of_int (Z.to_int z).

(** [str(e)] *)
Definition exn_msg (e : exn) : string :=
  match e with
  | OSError p => p
  | ValueError msg => msg
  | Exception msg => msg
  end.

(** The truth value of a returned path: [None] and [''] are false. *)
Definition truthy (r : option string) : bool :=
  match r with
  | Some p => negb (String.eqb p "")
  | None => false
  end.

(** ** Strategy wrappers

    Every wrapper catches all its exceptions and returns [None] then; the
    log [attempts] records each wrapper call with its result. *)

Definition record_attempt (s : strategy) (r : option string) : M unit := fun w =>
  (Ok tt, mkWorld (files w) (dirs w) (locked w) (attempts w ++ [(s, r)])).

Definition attempt (s : strategy) (body : M (option string)) : M (option string) :=
  let* r := catch body (fun _ => ret None) in
  record_attempt s r ;;
  ret r.

Definition ytdlp_exts : list string :=
  [".mp4"; ".avi"; ".mov"; ".mkv"; ".webm"; ".flv"; ".wmv"; ".m4v"].
Definition instaloader_exts : list string := [".mp4"; ".avi"; ".mov"; ".mkv"; ".webm"].

(** The body shared by [download_with_ytdlp], [download_with_youtubedl] and
    [download_with_instaloader]: the [--version] probe, the run, and on exit
    status 0 the first listed name with a video extension. *)
Definition download_with_tool (o : Oracle) (s : strategy) (exts : list string)
    (url output_dir : string) : M (option string) :=
  attempt s
    (if negb (tool_works o s) then ret None
     else
       let result := run_tool o s url in
       tool_writes output_dir (output_files result) ;;
       match returncode result with
       | None => raise (Exception "TimeoutExpired")
       | Some rc =>
           if Z.eqb rc 0 then
             let* names := listdir output_dir in
             ret (match List.find (fun file => existsb (endswith file) exts) names with
                  | Some file => Some (path_join output_dir file)
                  | None => None
                  end)
           else ret None
       end).

Definition download_with_ytdlp (o : Oracle) (url output_dir : string) :=
  download_with_tool o YtDlp ytdlp_exts url output_dir.
Definition download_with_youtubedl (o : Oracle) (url output_dir : string) :=
  download_with_tool o YoutubeDl ytdlp_exts url output_dir.
Definition download_with_instaloader (o : Oracle) (url output_dir : string) :=
  download_with_tool o Instaloader instaloader_exts url output_dir.

(** The body shared by [download_direct] and
    [download_direct_with_enhanced_headers].  [open(output_path, 'wb')]
    creates the file before the first chunk arrives; writing the chunks one
    by one leaves the file holding their concatenation, which a broken
    stream leaves behind. *)
Definition download_http (o : Oracle) (s : strategy) (url output_path : string)
    : M (option string) :=
  attempt s
    (let response := http_get o s url in
     match status_code response with
     | None => raise (Exception "RequestException")
     | Some code =>
         if (400 <=? code) && (code <? 600) then raise (Exception "HTTPError")
         else if negb (content_length_ok response)
         then raise (ValueError "invalid literal for int()")
         else
           write_file output_path (concat (body response)) ;;
           if stream_broken response then raise (Exception "ChunkedEncodingError")
           else ret (Some output_path)
     end).

Definition download_direct (o : Oracle) (url output_path : string) :=
  download_http o Direct url output_path.
Definition download_direct_with_enhanced_headers (o : Oracle) (url output_path : string) :=
  download_http o EnhancedDirect url output_path.

(** ** URL classification and the acquisition chain *)

Section Urls.

(** CPython releases since 2023 also pass a netloc holding both brackets to
    [_check_bracketed_netloc], which validates the bracketed host with the
    [ipaddress] module; that check is a parameter, [false] where it raises
    [ValueError]. *)
Variable check_bracketed_netloc : string -> bool.

(** The netloc of [urlsplit(url)], or its [ValueError]. *)
Definition urlsplit_netloc (url : string) : res string :=
  let url := remove_unsafe (lstrip_c0 url) in
  let url :=
    match find_char ":" url with
    | Some i =>
        match url with
        | String c0 _ =>
            if Nat.ltb 0 i && is_ascii_alpha c0 && str_forallb scheme_char (str_take i url)
            then str_drop (S i) url
            else url
        | EmptyString => url
        end
    | None => url
    end in
  if String.prefix "//" url then
    let netloc := take_netloc (str_drop 2 url) in
    if (contains "[" netloc && negb (contains "]" netloc))
       || (contains "]" netloc && negb (contains "[" netloc))
    then Err (ValueError "Invalid IPv6 URL")
    else if contains "[" netloc && contains "]" netloc
            && negb (check_bracketed_netloc netloc)
    then Err (ValueError "Invalid IPv6 URL")
    else Ok netloc
  else Ok "".

(** [EnhancedVideoDownloader.get_platform_type] *)
Definition get_platform_type (url : string) : res string :=
  match urlsplit_netloc (lower url) with
  | Err e => Err e
  | Ok netloc =>
      Ok (if contains "youtube.com" netloc || contains "youtu.be" netloc then "youtube"
          else if contains "instagram.com" netloc then "instagram"
          else if contains "tiktok.com" netloc then "tiktok"
          else if contains "twitter.com" netloc then "twitter"
          else if contains "facebook.com" netloc then "facebook"
          else if contains "vimeo.com" netloc then "vimeo"
          else if contains "dailymotion.com" netloc then "dailymotion"
          else if contains "twitch.tv" netloc then "twitch"
          else "other")
  end.

Definition video_platforms : list string :=
  ["youtube.com"; "youtu.be"; "vimeo.com"; "dailymotion.com";
   "twitch.tv"; "instagram.com"; "tiktok.com"; "twitter.com";
   "facebook.com"; "reddit.com"; "pinterest.com"; "snapchat.com";
   "linkedin.com"; "tumblr.com"; "discord.com"].

(** [EnhancedVideoDownloader.is_video_platform] *)
Definition is_video_platform (url : string) : res bool :=
  match urlsplit_netloc (lower url) with
  | Err e => Err e
  | Ok netloc => Ok (existsb (fun platform => contains platform netloc) video_platforms)
  end.

(** The wrappers [download_with_yt_dlp_fallback] calls when none of them
    yields a file. *)
Definition fallback_plan (url : string) : list strategy :=
  [YtDlp; YoutubeDl] ++ (if contains "instagram.com" (lower url) then [Instaloader] else []).

(** [EnhancedVideoDownloader.download_with_yt_dlp_fallback] *)
Definition download_with_yt_dlp_fallback (o : Oracle) (url output_dir : string)
    : M (option string) :=
  let* result := download_with_ytdlp o url output_dir in
  if truthy result then ret result
  else
    let* result := download_with_youtubedl o url output_dir in
    if truthy result then ret result
    else if contains "instagram.com" (lower url) then
      let* result := download_with_instaloader o url output_dir in
      if truthy result then ret result else ret None
    else ret None.

(** The [try] block of [EnhancedVideoDownloader.download_video]. *)
Definition download_video_body (o : Oracle) (downloads_dir url filename : string)
    : M string :=
  let download_dir := path_join downloads_dir (str_int (clock o)) in
  makedirs download_dir ;;
  let* platform_type := lift (get_platform_type url) in
  let* is_vp := lift (is_video_platform url) in
  let* downloaded_file :=
    if is_vp then download_with_yt_dlp_fallback o url download_dir else ret None in
  let* is_vp :=
    if truthy downloaded_file then ret false else lift (is_video_platform url) in
  let* downloaded_file :=
    if is_vp && bool_decide (platform_type ∈ ["youtube"; "instagram"; "tiktok"]) then
      catch
        (download_direct_with_enhanced_headers o url
           (path_join download_dir ("alternative_" +:+ filename)))
        (fun _ => ret downloaded_file)
    else ret downloaded_file in
  let* downloaded_file :=
    if truthy downloaded_file then ret downloaded_file
    else download_direct o url (path_join download_dir filename) in
  let failed := Exception ("All download methods failed for " +:+ platform_type
                           +:+ " platform") in
  match downloaded_file with
  | Some p =>
      let* found := if String.eqb p "" then ret false else exists_ p in
      if found then ret p else raise failed
  | None => raise failed
  end.

(** [EnhancedVideoDownloader.download_video] *)
Definition download_video (o : Oracle) (downloads_dir url filename : string) : M string :=
  catch (download_video_body o downloads_dir url filename)
    (fun e => raise (Exception ("Failed to download video: " +:+ exn_msg e))).

(** The strategies the chain attempts, in order, when none of them yields a
    file: the fallback tools for a video platform, instaloader when the URL
    mentions instagram.com, the enhanced fetch for the youtube, instagram and
    tiktok tags, and last the plain direct fetch. *)
Definition chain_plan (url : string) : list strategy :=
  match get_platform_type url, is_video_platform url with
  | Ok t, Ok true =>
      fallback_plan url
      ++ (if bool_decide (t ∈ ["youtube"; "instagram"; "tiktok"]) then [EnhancedDirect]
          else [])
      ++ [Direct]
  | Ok _, Ok false => [Direct]
  | _, _ => []
  end.

End Urls.





(** The six hosts [is_video_platform] knows and [get_platform_type] does not. *)
Definition extra_video_hosts : list string :=
  ["reddit.com"; "pinterest.com"; "snapchat.com"; "linkedin.com"; "tumblr.com";
   "discord.com"].

(** URLs of the shape [scheme://netloc rest] for the proofs: a scheme that
    [urlsplit] accepts, a netloc with no delimiter and no bracket, and a rest
    that is empty or starts with a delimiter. *)
Definition scheme_ok (s : string) : bool :=
  match s with
  | String c _ => is_ascii_alpha c && str_forallb scheme_char s
  | EmptyString => false
  end.

Definition netloc_char_ok (c : ascii) : bool :=
  negb (unsafe_url_byte c || Ascii.eqb c "/" || Ascii.eqb c "?" || Ascii.eqb c "#"
        || Ascii.eqb c "[" || Ascii.eqb c "]").

Definition netloc_ok (n : string) : bool := str_forallb netloc_char_ok n.

Definition rest_ok (r : string) : bool :=
  str_forallb (fun c => negb (unsafe_url_byte c)) r
  && match r with
     | EmptyString => true
     | String c _ => Ascii.eqb c "/" || Ascii.eqb c "?" || Ascii.eqb c "#"
     end.

(** ** [shutil.rmtree] and [EnhancedVideoDownloader.cleanup_all] *)

(** [q] lies in the tree below the directory [p]. *)
Definition under (p q : string) : bool := String.prefix (p +:+ "/") q.

Definition has_file_under (fs : gmap string bytes) (d : string) : bool :=
  existsb (fun kv : string * bytes => under d kv.1) (map_to_list fs).

(** A write-protected directory at [d] or below it. *)
Definition has_locked_dir_under (w : World) (d : string) : bool :=
  bool_decide (set_Exists (fun l => l ∈ locked w /\ (l = d \/ under d l = true)) (dirs w)).

(** [shutil.rmtree(p)] unlinks the files of the tree, removes each directory
    once it is empty ([os.rmdir]), and raises at the first entry it cannot
    remove.  Which entries come before that one depends on the directory
    order; the model takes the order that puts the write-protected entries
    last, so every other file of the tree goes, and every directory that
    is not write-protected and holds neither a write-protected file nor a
    write-protected directory.  A path that is not a directory raises at
    once; so does a tree whose top directory stays. *)
Definition rmtree (p : string) : M unit := fun w =>
  if bool_decide (p ∈ dirs w) then
    let fs := filter (fun kv : string * bytes => ~ (under p kv.1 = true /\ kv.1 ∉ locked w))
                (files w) in
    let ds := filter (fun d => ~ ((d = p \/ under p d = true) /\ has_file_under fs d = false
                                  /\ has_locked_dir_under w d = false))
                (dirs w) in
    let w' := mkWorld fs ds (locked w) (attempts w) in
    if bool_decide (p ∈ ds) then (Err (OSError p), w') else (Ok tt, w')
  else (Err (OSError p), w).

(** [EnhancedVideoDownloader.cleanup_all]: errors are logged, not raised. *)
Definition cleanup_all (temp_dir : string) : M unit :=
  catch (let* e := exists_ temp_dir in if e then rmtree temp_dir else ret tt)
    (fun _ => ret tt).

(** ** Sample runs of the acquisition chain *)

(** No downloader tool installed, and every HTTP fetch answered with [resp]. *)
Definition offline_tools (resp : response) : Oracle :=
  mkOracle (fun _ => false) (fun _ _ => mkToolResult None []) (fun _ _ => resp) 1700000000.

Definition sample_downloads_dir : string := "/tmp/tmpq1w2e3/downloads".

(** The state after the bot's start-up: the downloads directory exists. *)
Definition sample_world : World := mkWorld ∅ {[sample_downloads_dir]} ∅ [].

(** [200 OK] with an empty body. *)
Definition empty_body_response : response := mkResponse (Some 200) true [] false.

(** [404 Not Found]. *)
Definition not_found_response : response := mkResponse (Some 404) true [] false.

(** ** [urllib.parse.urlsplit] and [urlparse] in full *)

(** [if c in s: s, rest = s.split(c, 1)] *)
Definition split_first (c : ascii) (s : string) : string * string :=
  match find_char c s with
  | Some i => (str_take i s, str_drop (S i) s)
  | None => (s, "")
  end.

Record split_result := mkSplitResult {
  sr_scheme : string;
  sr_netloc : string;
  sr_path : string;
  sr_query : string;
  sr_fragment : string
}.

Record parse_result := mkParseResult {
  pr_scheme : string;
  pr_netloc : string;
  pr_path : string;
  pr_params : string;
  pr_query : string;
  pr_fragment : string
}.

(** [uses_params] *)
Definition uses_params : list string :=
  [""; "ftp"; "hdl"; "prospero"; "http"; "imap"; "https"; "shttp"; "rtsp"; "rtspu";
   "sip"; "sips"; "mms"; "sftp"; "tel"].

(** [_splitparams(url)]: the parameters start at the first [;] after the
    last [/]; with no [/] at the first [;] (which the caller ensures). *)
Definition splitparams (url : string) : string * string :=
  match rfind "/" url with
  | Some j =>
      match find_char ";" (str_drop j url) with
      | Some k => (str_take (j + k) url, str_drop (S (j + k)) url)
      | None => (url, "")
      end
  | None =>
      match find_char ";" url with
      | Some i => (str_take i url, str_drop (S i) url)
      | None => (str_take (String.length url - 1) url, url)
      end
  end.

(** [os.path.basename] *)
Definition basename (p : string) : string :=
  match rfind "/" p with
  | Some i => str_drop (S i) p
  | None => p
  end.

Section Urlparse.

Variable check_bracketed_netloc : string -> bool.

(** [urlsplit(url)] *)
Definition urlsplit (url : string) : res split_result :=
  let url := remove_unsafe (lstrip_c0 url) in
  let '(scheme, url) :=
    match find_char ":" url with
    | Some i =>
        match url with
        | String c0 _ =>
            if Nat.ltb 0 i && is_ascii_alpha c0 && str_forallb scheme_char (str_take i url)
            then (lower (str_take i url), str_drop (S i) url)
            else ("", url)
        | EmptyString => ("", url)
        end
    | None => ("", url)
    end in
  let netloc_url :=
    if String.prefix "//" url then
      let netloc := take_netloc (str_drop 2 url) in
      let url := str_drop (String.length netloc) (str_drop 2 url) in
      if (contains "[" netloc && negb (contains "]" netloc))
         || (contains "]" netloc && negb (contains "[" netloc))
      then Err (ValueError "Invalid IPv6 URL")
      else if contains "[" netloc && contains "]" netloc
              && negb (check_bracketed_netloc netloc)
      then Err (ValueError "Invalid IPv6 URL")
      else Ok (netloc, url)
    else Ok ("", url) in
  match netloc_url with
  | Err e => Err e
  | Ok (netloc, url) =>
      let '(url, fragment) := split_first "#" url in
      let '(url, query) := split_first "?" url in
      Ok (mkSplitResult scheme netloc url query fragment)
  end.

(** [urlparse(url)] *)
Definition urlparse (url : string) : res parse_result :=
  match urlsplit url with
  | Err e => Err e
  | Ok r =>
      let '(path, params) :=
        if bool_decide (sr_scheme r ∈ uses_params) && contains ";" (sr_path r)
        then splitparams (sr_path r) else (sr_path r, "") in
      Ok (mkParseResult (sr_scheme r) (sr_netloc r) path params (sr_query r) (sr_fragment r))
  end.

Definition video_extensions : list string :=
  [".mp4"; ".avi"; ".mov"; ".mkv"; ".webm"; ".flv"; ".wmv"; ".m4v"; ".3gp"; ".ogv"].

(** The host list of [is_video_url], in its order. *)
Definition url_video_platforms : list string :=
  ["youtube.com"; "youtu.be"; "vimeo.com"; "dailymotion.com";
   "twitch.tv"; "instagram.com"; "tiktok.com"; "twitter.com";
   "facebook.com"; "reddit.com"; "discord.com"; "pinterest.com";
   "snapchat.com"; "linkedin.com"; "tumblr.com"].

(** [EnhancedVideoDownloader.is_video_url] *)
Definition is_video_url (url : string) : res bool :=
  match urlparse (lower url) with
  | Err e => Err e
  | Ok parsed =>
      let path := lower (pr_path parsed) in
      if existsb (fun platform => contains platform (pr_netloc parsed)) url_video_platforms
      then Ok true
      else Ok (existsb (fun ext => endswith path ext) video_extensions)
  end.

(** [EnhancedVideoDownloader.extract_filename]; [now] is [int(time.time())]. *)
Definition extract_filename (now : Z) (url : string) : res string :=
  match urlparse url with
  | Err e => Err e
  | Ok parsed =>
      let filename := basename (pr_path parsed) in
      if String.eqb filename "" || negb (contains "." filename)
      then Ok ("video_" +:+ str_int now +:+ ".mp4")
      else Ok filename
  end.

(** The file name the [download_video] message handler passes on. *)
Definition handler_filename (now : Z) (url : string) : res string :=
  match extract_filename now url with
  | Err e => Err e
  | Ok filename =>
      Ok (if existsb (fun ext => endswith (lower filename) ext) video_extensions
          then filename else filename +:+ ".mp4")
  end.

End Urlparse.

(** URLs [scheme://netloc path tail] with a path of no [;], [?] or [#] and a
    tail that is empty or starts the query or the fragment. *)
Definition path_char_ok (c : ascii) : bool :=
  negb (unsafe_url_byte c || Ascii.eqb c "?" || Ascii.eqb c "#" || Ascii.eqb c ";").

Definition path_ok (p : string) : bool :=
  str_forallb path_char_ok p
  && match p with
     | EmptyString => true
     | String c _ => Ascii.eqb c "/"
     end.

Definition tail_ok (r : string) : bool :=
  str_forallb (fun c => negb (unsafe_url_byte c)) r
  && match r with
     | EmptyString => true
     | String c _ => Ascii.eqb c "?" || Ascii.eqb c "#"
     end.

(** ** The [download_video] message handler *)

(** [str.isspace] on the characters [\x00] to [\xff]. *)
Definition py_space (c : ascii) : bool :=
  let n := nat_of_ascii c in
  (Nat.leb 9 n && Nat.leb n 13) || (Nat.leb 28 n && Nat.leb n 32)
  || Nat.eqb n 133 || Nat.eqb n 160.

Fixpoint lstrip_ws (s : string) : string :=
  match s with
  | EmptyString => EmptyString
  | String c s' => if py_space c then lstrip_ws s' else s
  end.

Fixpoint rstrip_ws (s : string) : string :=
  match s with
  | EmptyString => EmptyString
  | String c s' =>
      let r := rstrip_ws s' in
      if String.eqb r "" && py_space c then EmptyString else String c r
  end.

(** [s.strip()] *)
Definition py_strip (s : string) : string := rstrip_ws (lstrip_ws s).

(** [os.remove(p)] *)
Definition remove_file (p : string) : M unit := fun w =>
  match files w !! p with
  | Some _ =>
      if bool_decide (p ∈ locked w) then (Err (OSError p), w)
      else (Ok tt, mkWorld (delete p (files w)) (dirs w) (locked w) (attempts w))
  | None => (Err (OSError p), w)
  end.

(** [tempfile.mkdtemp()] settling on the name [p]: its [os.mkdir(p, 0o700)]
    raises when [p] cannot be created.  On a name already in use the real
    function draws another one; the model does not draw names, it raises
    there, and the properties below hand it a fresh name. *)
Definition mkdtemp (p : string) : M unit := fun w =>
  if path_exists p w || bool_decide (p ∈ locked w) then (Err (OSError p), w)
  else (Ok tt, mkWorld (files w) ({[p]} ∪ dirs w) (locked w) (attempts w)).

(** The messages the handler sends, by their format arguments. *)
Inductive message :=
  | InvalidUrl                                  (* "Invalid URL. Please provide ..." *)
  | Analyzing                                   (* "Analyzing URL and selecting ..." *)
  | Downloading (filename : string) (is_video_platform : bool) (platform_type : string)
  | Splitting (file_size : Z)
  | SendingPart (part_no parts : nat) (part_size : Z)
  | PartVideo (chunk_path filename : string) (part_no parts : nat) (part_size : Z)
  | Sending (filename : string) (file_size : Z)
  | FileVideo (file_path filename : string) (file_size : Z)
  | Completed (filename : string)
  | DownloadFailed (error : string).

(** The handler's state: the world and the messages sent to the chat. *)
Definition HState : Type := World * list message.
Definition HM (A : Type) := HState -> res A * HState.

Definition hret {A} (a : A) : HM A := fun s => (Ok a, s).
Definition hraise {A} (e : exn) : HM A := fun s => (Err e, s).
Definition hbind {A B} (m : HM A) (k : A -> HM B) : HM B :=
  fun s => match m s with
           | (Ok a, s') => k a s'
           | (Err e, s') => (Err e, s')
           end.
Definition hcatch {A} (m : HM A) (h : exn -> HM A) : HM A :=
  fun s => match m s with
           | (Err e, s') => h e s'
           | r => r
           end.
(** [try: m finally: f] *)
Definition hfinally {A} (m : HM A) (f : HM unit) : HM A :=
  fun s => match m s with
           | (r, s1) =>
               match f s1 with
               | (Ok _, s2) => (r, s2)
               | (Err e, s2) => (Err e, s2)
               end
           end.
Definition hlift {A} (m : M A) : HM A :=
  fun s => match m s.1 with (r, w) => (r, (w, s.2)) end.

Notation "'let%' x ':=' m 'in' k" := (hbind m (fun x => k))
  (at level 200, x name, m at level 100, right associativity).
Notation "m ;;; k" := (hbind m (fun _ => k)) (at level 100, right associativity).

Section Handler.

Variable check_bracketed_netloc : string -> bool.

(** Whether the Telegram API call sending a message raises. *)
Variable tg_fails : message -> bool.

Definition send (msg : message) : HM unit := fun s =>
  (if tg_fails msg then Err (Exception "TelegramError") else Ok tt, (s.1, s.2 ++ [msg])).

(** The loop over the parts: progress edit, [reply_video] on the opened part,
    then [os.remove] with its errors ignored. *)
Fixpoint send_parts (filename : string) (file_chunks : list string) (i n : nat)
    : HM unit :=
  match file_chunks with
  | [] => hret tt
  | chunk_path :: rest =>
      let% part_size := hlift (getsize chunk_path) in
      send (SendingPart (S i) n part_size) ;;;
      hlift (open_read chunk_path) ;;;
      let% part_size := hlift (getsize chunk_path) in
      send (PartVideo chunk_path filename (S i) n part_size) ;;;
      hcatch (hlift (remove_file chunk_path)) (fun _ => hret tt) ;;;
      send_parts filename rest (S i) n
  end.

(** The [try] block of the handler, for the downloader whose workspace is
    [temp_dir]. *)
Definition handler_body (o : Oracle) (temp_dir url : string) : HM unit :=
  let downloads_dir := path_join temp_dir "downloads" in
  let% filename := hlift (lift (handler_filename check_bracketed_netloc (clock o) url)) in
  let% platform_type := hlift (lift (get_platform_type check_bracketed_netloc url)) in
  let% is_vp := hlift (lift (is_video_platform check_bracketed_netloc url)) in
  send (Downloading filename is_vp platform_type) ;;;
  let% file_path :=
    hlift (download_video check_bracketed_netloc o downloads_dir url filename) in
  let% found := if String.eqb file_path "" then hret false else hlift (exists_ file_path) in
  if negb found then hraise (Exception "Download failed - file not found")
  else
    let% file_size := hlift (getsize file_path) in
    (if MAX_FILE_SIZE <? file_size then
       send (Splitting file_size) ;;;
       let% file_chunks := hlift (split_large_file file_path MAX_FILE_SIZE) in
       send_parts filename file_chunks 0 (length file_chunks)
     else
       send (Sending filename file_size) ;;;
       hlift (open_read file_path) ;;;
       send (FileVideo file_path filename file_size)) ;;;
    send (Completed filename) ;;;
    hcatch
      (let% e := hlift (exists_ file_path) in
       (if e then hlift (remove_file file_path) else hret tt) ;;;
       hlift (cleanup_all temp_dir))
      (fun _ => hret tt).

(** [download_video(update, context)] on the message [text]; [temp_dir] is
    the directory [mkdtemp] creates.  The [CalledProcessError] and
    [RequestException] clauses catch nothing here: every exception that
    reaches them is an [Exception], which the last clause reports. *)
Definition handler (o : Oracle) (temp_dir text : string) : HM unit :=
  let url := py_strip text in
  if negb (String.prefix "http://" url || String.prefix "https://" url) then
    send InvalidUrl
  else
    hlift (mkdtemp temp_dir ;; makedirs (path_join temp_dir "downloads")) ;;;
    send Analyzing ;;;
    hfinally
      (hcatch (handler_body o temp_dir url)
         (fun e => send (DownloadFailed (exn_msg e))))
      (hcatch (hlift (cleanup_all temp_dir)) (fun _ => hret tt)).

End Handler.

(** ** Sample inputs of the further properties *)

Definition sample_temp_dir : string := "/tmp/tmpq1w2e3".

(** A world holding the workspace with one downloaded file in it. *)
Definition sample_workspace : World :=
  mkWorld (<[sample_path := [Byte.x30]]> ∅) {[sample_temp_dir; sample_downloads_dir]} ∅ [].

(** yt-dlp installed, leaving [clip.mp4] and exiting with 0. *)
Definition ytdlp_ok : Oracle :=
  mkOracle (fun _ => true) (fun _ _ => mkToolResult (Some 0) [("clip.mp4", [Byte.x30])])
    (fun _ _ => not_found_response) 1700000000.

Definition ok_response : response := mkResponse (Some 200) true [[Byte.x30]; [Byte.x31]] false.

(** A file system where nothing exists yet. *)
Definition bare_world : World := mkWorld ∅ ∅ ∅ [].

(** ** Predicates of the proofs about the handler *)

(** The step keeps every directory and the locked set. *)
Definition grows {A} (m : M A) : Prop :=
  forall w, dirs w ⊆ dirs (m w).2 /\ locked (m w).2 = locked w.

Definition hgrows {A} (m : HM A) : Prop :=
  forall s, dirs s.1 ⊆ dirs (m s).2.1 /\ locked (m s).2.1 = locked s.1.

(** The workspace is still there, or all of it is gone. *)
Definition tidy (temp_dir : string) (w : World) : Prop :=
  temp_dir ∈ dirs w
  \/ (forall q, under temp_dir q = true -> files w !! q = None /\ q ∉ dirs w).

(** From a state holding the workspace, [m] ends with a tidy one. *)
Definition ends_tidy {A} (temp_dir : string) (m : HM A) : Prop :=
  forall s, temp_dir ∈ dirs s.1 -> temp_dir ∉ locked s.1 ->
  (forall q, under temp_dir q = true -> q ∉ locked s.1) ->
  locked (m s).2.1 = locked s.1 /\ tidy temp_dir (m s).2.1.

Definition keeps_log {A} (m : HM A) : Prop := forall s, (m s).2.2 = s.2.

(** Whenever [m] returns, its last message is a completion notice. *)
Definition ends_completed {A} (m : HM A) : Prop :=
  forall s a s', m s = (Ok a, s') -> exists f, last s'.2 = Some (Completed f).

(** * Proofs *)

(** ** Strings *)

Lemma str_app_cons (c : ascii) (s1 s2 : string) :
  String c s1 +:+ s2 = String c (s1 +:+ s2).
Proof. reflexivity. Qed.

Lemma str_app_empty (s : string) : "" +:+ s = s.
Proof. reflexivity. Qed.

Lemma str_take_drop (n : nat) (s : string) : str_take n s +:+ str_drop n s = s.
Proof.
  revert s; induction n as [|n IH]; intros [|c s]; simpl; try done.
  by rewrite str_app_cons, IH.
Qed.

Lemma str_app_nil_r (s : string) : s +:+ "" = s.
Proof. induction s as [|c s IH]; [done | by rewrite str_app_cons, IH]. Qed.

Lemma splitext_app (p : string) : (splitext p).1 +:+ (splitext p).2 = p.
Proof.
  unfold splitext. destruct (rfind "." p); simpl; [|apply str_app_nil_r].
  destruct (_ && _); simpl; [apply str_take_drop | apply str_app_nil_r].
Qed.

Lemma list_ascii_app (s1 s2 : string) :
  String.list_ascii_of_string (s1 +:+ s2)
  = String.list_ascii_of_string s1 ++ String.list_ascii_of_string s2.
Proof. induction s1 as [|c s1 IH]; [done | rewrite str_app_cons; simpl; by rewrite IH]. Qed.

Lemma str_length_app (s1 s2 : string) :
  String.length (s1 +:+ s2) = (String.length s1 + String.length s2)%nat.
Proof. induction s1 as [|c s1 IH]; [done | rewrite str_app_cons; simpl; by rewrite IH]. Qed.

Lemma str_app_inv_r (s1 s2 e : string) : s1 +:+ e = s2 +:+ e -> s1 = s2.
Proof.
  intros H. apply (f_equal String.list_ascii_of_string) in H.
  rewrite !list_ascii_app in H. apply app_inv_tail in H.
  rewrite <- (String.string_of_list_ascii_of_string s1),
    <- (String.string_of_list_ascii_of_string s2), H. done.
Qed.

Lemma of_uint_D0 (d : Decimal.uint) : Nat.of_uint (Decimal.D0 d) = Nat.of_uint d.
Proof.
  rewrite <- (DecimalNat.Unsigned.of_uint_norm (Decimal.D0 d)).
  rewrite <- (DecimalNat.Unsigned.of_uint_norm d). reflexivity.
Qed.

Lemma of_uint_iter_D0 (k : nat) (d : Decimal.uint) :
  Nat.of_uint (Nat.iter k Decimal.D0 d) = Nat.of_uint d.
Proof. induction k as [|k IH]; simpl; [done | by rewrite of_uint_D0]. Qed.

Lemma fmt03_inj (a b : nat) : fmt03 a = fmt03 b -> a = b.
Proof.
  unfold fmt03. intros H.
  apply (f_equal NilEmpty.uint_of_string) in H. rewrite !NilEmpty.usu in H.
  injection H as H. apply (f_equal Nat.of_uint) in H.
  rewrite !of_uint_iter_D0, !DecimalNat.Unsigned.of_to in H. done.
Qed.

Lemma chunk_path_inj (b e : string) (m n : nat) :
  chunk_path b m e = chunk_path b n e -> m = n.
Proof.
  unfold chunk_path. intros H.
  apply (inj (String.app b)), (inj (String.app "_part")), str_app_inv_r in H.
  by apply fmt03_inj.
Qed.

Lemma chunk_path_neq_source (p : string) (n : nat) :
  chunk_path (splitext p).1 n (splitext p).2 <> p.
Proof.
  pose proof (splitext_app p) as Happ.
  destruct (splitext p) as [b e]; simpl in *. intros H.
  apply (f_equal String.length) in H. rewrite <- Happ in H.
  unfold chunk_path in H. rewrite !str_length_app in H. simpl in H. lia.
Qed.

(** ** Cutting a byte string into blocks *)

Section Chunks.
Variable c : nat.
Hypothesis Hc : (0 < c)%nat.

Lemma chunks_fuel_concat (f : nat) (l : bytes) :
  (length l < f)%nat -> concat (chunks_fuel f c l) = l.
Proof.
  revert l; induction f as [|f IH]; intros l Hl; [lia|].
  destruct l as [|x l]; simpl; [destruct c; done|].
  destruct c as [|c']; [lia|]. simpl.
  rewrite IH by (rewrite length_drop; simpl in *; lia).
  change (x :: take c' l ++ drop c' l = x :: l). by rewrite take_drop.
Qed.

Lemma chunks_fuel_length (f : nat) (l : bytes) :
  (length l < f)%nat -> length (chunks_fuel f c l) = ((length l + c - 1) / c)%nat.
Proof.
  revert l; induction f as [|f IH]; intros l Hl; [lia|].
  destruct l as [|x l].
  { destruct c as [|c']; [lia|]. cbn [chunks_fuel take length].
    rewrite Nat.div_small; lia. }
  destruct c as [|c'] eqn:Ec; [lia|]. cbn [chunks_fuel take].
  cbn [length]. rewrite IH by (rewrite length_drop; simpl in *; lia).
  rewrite length_drop. cbn [length].
  destruct (decide (S (length l) <= S c')%nat).
  - rewrite (Nat.div_small (S (length l) - S c' + S c' - 1)) by lia.
    apply (Nat.div_unique _ _ 1 (length l)); lia.
  - replace (S (length l) + S c' - 1)%nat
      with (1 * S c' + (S (length l) - S c' + S c' - 1))%nat by lia.
    rewrite Nat.div_add_l by lia. lia.
Qed.

Lemma chunks_fuel_nonempty (f : nat) (l : bytes) : [] ∉ chunks_fuel f c l.
Proof.
  revert l; induction f as [|f IH]; intros l; simpl; [set_solver|].
  destruct (take c l) as [|x xs]; [set_solver|].
  rewrite elem_of_cons. intros [H|H]; [done | by apply (IH (drop c l))].
Qed.
End Chunks.

Lemma drop_length_take {A} (n : nat) (l : list A) :
  drop (length (take n l)) l = drop n l.
Proof.
  rewrite length_take. destruct (decide (n <= length l)%nat).
  - by rewrite Nat.min_l.
  - rewrite Nat.min_r by lia. rewrite !drop_ge by lia. done.
Qed.

(** ** The split loop writes the blocks in order *)

Section SplitLoop.
Variables (fp b e : string) (d : bytes) (c : Z).
Hypothesis Hc : 0 < c.
Hypothesis Hsrc : forall k, chunk_path b k e <> fp.

Lemma split_loop_write_parts (fuel pos n : nat) (acc : list string) (w : World) :
  files w !! fp = Some d ->
  split_loop fuel fp b e c (Z.of_nat pos) n acc w
  = write_parts b e n (chunks_fuel fuel (Z.to_nat c) (drop pos d)) acc w.
Proof.
  revert pos n acc w; induction fuel as [|fuel IH]; intros pos n acc w Hw;
    [reflexivity|].
  cbn [split_loop chunks_fuel]. unfold bind at 1, read_at. rewrite Hw.
  assert (Hr : py_read d (Z.of_nat pos) c = take (Z.to_nat c) (drop pos d)).
  { unfold py_read. rewrite Nat2Z.id. destruct (Z.ltb_spec c 0); [lia|done]. }
  rewrite Hr. destruct (take (Z.to_nat c) (drop pos d)) as [|x xs] eqn:Et;
    [reflexivity|].
  cbn [write_parts]. unfold bind, write_file.
  case_bool_decide; [reflexivity|].
  replace (Z.of_nat pos + Z.of_nat (length (x :: xs)))
    with (Z.of_nat (pos + length (take (Z.to_nat c) (drop pos d)))) by (rewrite Et; lia).
  rewrite IH.
  - rewrite <- drop_drop, drop_length_take. reflexivity.
  - simpl. rewrite lookup_insert_ne; [done|]. intros Heq. by apply (Hsrc n).
Qed.
End SplitLoop.

(** ** Writing the blocks *)

Section WriteParts.
Variables (b e : string).

Lemma write_parts_ok (ps : list bytes) (n : nat) (acc : list string) (w : World) :
  (forall i, (i < length ps)%nat -> chunk_path b (n + i) e ∉ locked w) ->
  exists w',
    write_parts b e n ps acc w
    = (Ok (acc ++ map (fun i => chunk_path b (n + i) e) (seq 0 (length ps))), w')
    /\ locked w' = locked w /\ dirs w' = dirs w /\ attempts w' = attempts w
    /\ (forall i, (i < length ps)%nat -> files w' !! chunk_path b (n + i) e = ps !! i)
    /\ (forall k, (forall i, (i < length ps)%nat -> k <> chunk_path b (n + i) e) ->
          files w' !! k = files w !! k).
Proof.
  revert n acc w; induction ps as [|p ps IH]; intros n acc w Hl.
  { exists w. simpl. rewrite app_nil_r. repeat split; intros; lia || done. }
  cbn [write_parts]. unfold bind at 1, write_file.
  rewrite bool_decide_false by (rewrite <- (Nat.add_0_r n); apply Hl; simpl; lia).
  set (w1 := mkWorld _ _ _ _).
  destruct (IH (S n) (acc ++ [chunk_path b n e]) w1) as
    (w' & Hrun & Hlk & Hd & Ha & Hin & Hout).
  { intros i Hi. replace (S n + i)%nat with (n + S i)%nat by lia.
    apply Hl. simpl. lia. }
  exists w'. rewrite Hrun. split.
  { f_equal. f_equal. rewrite <- app_assoc. f_equal. cbn [length seq map].
    rewrite Nat.add_0_r. f_equal. rewrite <- seq_shift, map_map.
    apply map_ext. intros i. f_equal. lia. }
  repeat split; try assumption.
  - intros [|i] Hi.
    + rewrite Nat.add_0_r, Hout.
      * simpl. by rewrite lookup_insert_eq.
      * intros j _ Hj. apply chunk_path_inj in Hj. lia.
    + replace (n + S i)%nat with (S n + i)%nat by lia. apply Hin. simpl in Hi. lia.
  - intros k Hk. rewrite Hout.
    + simpl. rewrite lookup_insert_ne; [done|].
      intros Hk0. apply (Hk 0%nat); [simpl; lia | rewrite <- Hk0; f_equal; lia].
    + intros i Hi. replace (S n + i)%nat with (n + S i)%nat by lia.
      apply Hk. simpl. lia.
Qed.
End WriteParts.

Section WritePartsFail.
Variables (b e : string).

Lemma write_parts_fail (ps : list bytes) (j n : nat) (acc : list string) (w : World) :
  (j < length ps)%nat ->
  (forall i, (i < j)%nat -> chunk_path b (n + i) e ∉ locked w) ->
  chunk_path b (n + j) e ∈ locked w ->
  exists w',
    write_parts b e n ps acc w = (Err (OSError (chunk_path b (n + j) e)), w')
    /\ (forall i, (i < j)%nat -> files w' !! chunk_path b (n + i) e = ps !! i)
    /\ (forall k, (forall i, (i < j)%nat -> k <> chunk_path b (n + i) e) ->
          files w' !! k = files w !! k).
Proof.
  revert j n acc w; induction ps as [|p ps IH]; intros j n acc w Hj Hl Hlk;
    [simpl in Hj; lia|].
  cbn [write_parts]. unfold bind at 1, write_file.
  destruct j as [|j].
  { rewrite Nat.add_0_r in Hlk. rewrite bool_decide_true by done.
    exists w. rewrite Nat.add_0_r. repeat split; intros; lia || done. }
  rewrite bool_decide_false by (rewrite <- (Nat.add_0_r n); apply Hl; lia).
  set (w1 := mkWorld _ _ _ _).
  destruct (IH j (S n) (acc ++ [chunk_path b n e]) w1) as (w' & Hrun & Hin & Hout).
  { simpl in Hj. lia. }
  { intros i Hi. replace (S n + i)%nat with (n + S i)%nat by lia. apply Hl. lia. }
  { replace (S n + j)%nat with (n + S j)%nat by lia. done. }
  exists w'. replace (n + S j)%nat with (S n + j)%nat by lia. rewrite Hrun.
  repeat split.
  - intros [|i] Hi.
    + rewrite Nat.add_0_r, Hout.
      * simpl. by rewrite lookup_insert_eq.
      * intros i _ Hi'. apply chunk_path_inj in Hi'. lia.
    + replace (n + S i)%nat with (S n + i)%nat by lia. apply Hin. lia.
  - intros k Hk. rewrite Hout.
    + simpl. rewrite lookup_insert_ne; [done|].
      intros Hk0. apply (Hk 0%nat); [lia | rewrite <- Hk0; f_equal; lia].
    + intros i Hi. replace (S n + i)%nat with (n + S i)%nat by lia. apply Hk. lia.
Qed.
End WritePartsFail.

(** ** [split_large_file] on a file over the limit *)

Lemma split_blocks_concat (c : Z) (d : bytes) : 0 < c -> concat (split_blocks c d) = d.
Proof. intros Hc. apply chunks_fuel_concat; lia. Qed.

Lemma split_blocks_length (c : Z) (d : bytes) :
  0 < c -> Z.of_nat (length (split_blocks c d)) = (Z.of_nat (length d) + c - 1) / c.
Proof.
  intros Hc. unfold split_blocks. rewrite chunks_fuel_length by lia.
  rewrite Nat2Z.inj_div, Nat2Z.inj_sub, Nat2Z.inj_add, Z2Nat.id by lia.
  reflexivity.
Qed.

Lemma split_large_file_small (w : World) (fp : string) (d : bytes) (c : Z) :
  files w !! fp = Some d -> Z.of_nat (length d) <= MAX_FILE_SIZE ->
  split_large_file fp c w = (Ok [fp], w).
Proof.
  intros Hd Hs. unfold split_large_file, catch, split_body, bind, getsize.
  rewrite Hd. destruct (Z.leb_spec (Z.of_nat (length d)) MAX_FILE_SIZE); [done|lia].
Qed.

Lemma split_body_big (w : World) (fp : string) (d : bytes) (c : Z) :
  files w !! fp = Some d -> MAX_FILE_SIZE < Z.of_nat (length d) -> 0 < c ->
  split_body fp c w
  = write_parts (splitext fp).1 (splitext fp).2 0 (split_blocks c d) [] w.
Proof.
  intros Hd Hs Hc. unfold split_body, bind at 1, getsize. rewrite Hd.
  destruct (Z.leb_spec (Z.of_nat (length d)) MAX_FILE_SIZE); [lia|].
  pose proof (chunk_path_neq_source fp) as Hsrc.
  destruct (splitext fp) as [b e]. unfold bind, open_read. rewrite Hd.
  rewrite (split_loop_write_parts fp b e d c Hc Hsrc _ 0 0 [] w Hd).
  by rewrite Nat2Z.id, drop_0.
Qed.

Lemma split_large_file_big (w : World) (fp : string) (d : bytes) (c : Z) :
  files w !! fp = Some d -> MAX_FILE_SIZE < Z.of_nat (length d) -> 0 < c ->
  (forall i, (i < length (split_blocks c d))%nat -> part_name fp i ∉ locked w) ->
  exists w',
    split_large_file fp c w
    = (Ok (map (part_name fp) (seq 0 (length (split_blocks c d)))), w')
    /\ locked w' = locked w /\ dirs w' = dirs w /\ attempts w' = attempts w
    /\ (forall i, (i < length (split_blocks c d))%nat ->
          files w' !! part_name fp i = split_blocks c d !! i)
    /\ (forall k, (forall i, (i < length (split_blocks c d))%nat -> k <> part_name fp i) ->
          files w' !! k = files w !! k).
Proof.
  intros Hd Hs Hc Hl. unfold split_large_file, catch.
  rewrite (split_body_big w fp d c Hd Hs Hc).
  destruct (write_parts_ok (splitext fp).1 (splitext fp).2 (split_blocks c d) 0 [] w)
    as (w' & Hrun & Hrest); [exact Hl|].
  rewrite Hrun. exists w'. split; [|exact Hrest]. done.
Qed.

Lemma split_large_file_big_fail (w : World) (fp : string) (d : bytes) (c : Z) (j : nat) :
  files w !! fp = Some d -> MAX_FILE_SIZE < Z.of_nat (length d) -> 0 < c ->
  (j < length (split_blocks c d))%nat ->
  (forall i, (i < j)%nat -> part_name fp i ∉ locked w) ->
  part_name fp j ∈ locked w ->
  exists w',
    split_body fp c w = (Err (OSError (part_name fp j)), w')
    /\ split_large_file fp c w = (Ok [fp], w')
    /\ (forall i, (i < j)%nat -> files w' !! part_name fp i = split_blocks c d !! i).
Proof.
  intros Hd Hs Hc Hj Hl Hlk.
  destruct (write_parts_fail (splitext fp).1 (splitext fp).2 (split_blocks c d) j 0 [] w)
    as (w' & Hrun & Hin & _); [exact Hj | exact Hl | exact Hlk|].
  exists w'. rewrite (split_body_big w fp d c Hd Hs Hc). split; [exact Hrun|].
  split; [|exact Hin].
  unfold split_large_file, catch. rewrite (split_body_big w fp d c Hd Hs Hc), Hrun.
  reflexivity.
Qed.

Lemma chunks_fuel_nil (f c : nat) : chunks_fuel f c [] = [].
Proof. destruct f, c; reflexivity. Qed.

Lemma chunks_fuel_lookup (c f : nat) (l : bytes) (i : nat) :
  (0 < c)%nat -> (i < length (chunks_fuel f c l))%nat ->
  chunks_fuel f c l !! i = Some (take c (drop (i * c) l)).
Proof.
  intros Hc. revert l i; induction f as [|f IH]; intros l i Hi; [simpl in Hi; lia|].
  cbn [chunks_fuel] in *. destruct (take c l) as [|x xs] eqn:Et; [simpl in Hi; lia|].
  destruct i as [|i]; [by rewrite Nat.mul_0_l, drop_0, Et|].
  cbn [length] in Hi. cbn [lookup list_lookup]. simpl. rewrite IH by lia.
  rewrite drop_drop. by replace (c + i * c)%nat with (S i * c)%nat by lia.
Qed.

Lemma split_blocks_lookup (c : Z) (d : bytes) (i : nat) :
  0 < c -> (i < length (split_blocks c d))%nat ->
  split_blocks c d !! i = Some (take (Z.to_nat c) (drop (i * Z.to_nat c) d)).
Proof. intros Hc Hi. apply chunks_fuel_lookup; [lia | exact Hi]. Qed.

Lemma split_blocks_single (c : Z) (d : bytes) :
  (0 < length d)%nat -> Z.of_nat (length d) <= c -> split_blocks c d = [d].
Proof.
  intros Hn Hc. unfold split_blocks. cbn [chunks_fuel].
  rewrite take_ge by lia. destruct d as [|x d]; [simpl in Hn; lia|].
  rewrite drop_ge by lia. by rewrite chunks_fuel_nil.
Qed.

Lemma handler_split_step_big (w : World) (fp : string) (d : bytes) :
  files w !! fp = Some d -> MAX_FILE_SIZE < Z.of_nat (length d) ->
  handler_split_step fp w = split_large_file fp MAX_FILE_SIZE w.
Proof.
  intros Hd Hs. unfold handler_split_step, bind at 1, getsize. rewrite Hd.
  destruct (Z.ltb_spec MAX_FILE_SIZE (Z.of_nat (length d))); [done|lia].
Qed.

Lemma lookup_map_seq0 {A} (f : nat -> A) (n i : nat) :
  (i < n)%nat -> map f (seq 0 n) !! i = Some (f i).
Proof.
  intros Hi. assert (Hm : forall l : list nat, map f l = f <$> l).
  { induction l as [|x l IH]; simpl; [done | by rewrite IH]. }
  rewrite Hm, list_lookup_fmap, lookup_seq_lt by done. done.
Qed.

Lemma big_file_length : Z.of_nat (length big_file) = MAX_FILE_SIZE + 1.
Proof. unfold big_file. rewrite repeat_length, Z2Nat.id; [reflexivity|]. unfold MAX_FILE_SIZE; lia. Qed.

Lemma world_with_lookup (p : string) (d : bytes) (lk : gset string) :
  files (world_with p d lk) !! p = Some d.
Proof. unfold world_with; simpl. by rewrite lookup_insert_eq. Qed.

Lemma big_file_blocks : length (split_blocks MAX_FILE_SIZE big_file) = 2%nat.
Proof.
  pose proof (split_blocks_length MAX_FILE_SIZE big_file ltac:(reflexivity)) as H.
  rewrite big_file_length in H. change ((MAX_FILE_SIZE + 1 + MAX_FILE_SIZE - 1)
    / MAX_FILE_SIZE) with 2 in H. lia.
Qed.

Lemma part_name_neq (p : string) (i j : nat) : i <> j -> part_name p i <> part_name p j.
Proof. intros Hij H. apply chunk_path_inj in H. done. Qed.

Lemma part_name_not_source (p : string) (i : nat) : part_name p i <> p.
Proof. apply chunk_path_neq_source. Qed.

(** * The claims *)

(** ** Strings and URLs *)

Lemma lower_char_props (c : ascii) :
  lower_char (lower_char c) = lower_char c
  /\ unsafe_url_byte (lower_char c) = unsafe_url_byte c
  /\ c0_control_or_space (lower_char c) = c0_control_or_space c
  /\ scheme_char (lower_char c) = scheme_char c
  /\ is_ascii_alpha (lower_char c) = is_ascii_alpha c
  /\ netloc_char_ok (lower_char c) = netloc_char_ok c
  /\ Ascii.eqb (lower_char c) ":" = Ascii.eqb c ":"
  /\ Ascii.eqb (lower_char c) "/" = Ascii.eqb c "/"
  /\ Ascii.eqb (lower_char c) "?" = Ascii.eqb c "?"
  /\ Ascii.eqb (lower_char c) "#" = Ascii.eqb c "#".
Proof.
  destruct c as [[] [] [] [] [] [] [] []]; vm_compute; repeat split.
Qed.

Lemma lower_app (s1 s2 : string) : lower (s1 +:+ s2) = lower s1 +:+ lower s2.
Proof. induction s1 as [|c s1 IH]; [done|]. rewrite str_app_cons. simpl. by rewrite IH. Qed.

Lemma lower_idem (s : string) : lower (lower s) = lower s.
Proof.
  induction s as [|c s IH]; [done|]. simpl. rewrite IH.
  by destruct (lower_char_props c) as [-> _].
Qed.

Lemma prefix_empty (s : string) : String.prefix "" s = true.
Proof. by destruct s. Qed.

Lemma str_forallb_app (f : ascii -> bool) (s1 s2 : string) :
  str_forallb f (s1 +:+ s2) = str_forallb f s1 && str_forallb f s2.
Proof.
  induction s1 as [|c s1 IH]; [done|]. rewrite str_app_cons. simpl.
  rewrite IH. by destruct (f c).
Qed.

(** Lowering keeps each of the character classes of the proofs. *)
Lemma str_forallb_lower (f : ascii -> bool) (s : string) :
  (forall c, f (lower_char c) = f c) -> str_forallb f (lower s) = str_forallb f s.
Proof. intros Hf. induction s as [|c s IH]; [done|]. simpl. by rewrite Hf, IH. Qed.

Lemma remove_unsafe_id (s : string) :
  str_forallb (fun c => negb (unsafe_url_byte c)) s = true -> remove_unsafe s = s.
Proof.
  induction s as [|c s IH]; [done|]. simpl.
  destruct (unsafe_url_byte c); simpl; [done|]. intros H. by rewrite IH.
Qed.

Lemma find_char_app_none (c : ascii) (s1 s2 : string) :
  str_forallb (fun a => negb (Ascii.eqb a c)) s1 = true ->
  find_char c (s1 +:+ s2) = option_map (fun i => (String.length s1 + i)%nat) (find_char c s2).
Proof.
  induction s1 as [|a s1 IH].
  - intros _. rewrite str_app_empty. by destruct (find_char c s2).
  - rewrite str_app_cons. simpl.
    destruct (Ascii.eqb a c); simpl; [done|]. intros H. rewrite IH by done.
    by destruct (find_char c s2).
Qed.

Lemma str_take_app (s1 s2 : string) : str_take (String.length s1) (s1 +:+ s2) = s1.
Proof.
  induction s1 as [|c s1 IH]; [by destruct s2|]. rewrite str_app_cons. simpl. by rewrite IH.
Qed.

Lemma str_drop_app (s1 s2 : string) (k : nat) :
  str_drop (String.length s1 + k) (s1 +:+ s2) = str_drop k s2.
Proof. induction s1 as [|c s1 IH]; [done|]. rewrite str_app_cons. simpl. done. Qed.

Lemma take_netloc_app (n r : string) :
  netloc_ok n = true -> rest_ok r = true -> take_netloc (n +:+ r) = n.
Proof.
  intros Hn Hr. induction n as [|c n IH]; simpl.
  - unfold rest_ok in Hr. apply andb_prop in Hr as [_ Hr].
    destruct r as [|c r]; [done|]. simpl. by rewrite Hr.
  - unfold netloc_ok in Hn; simpl in Hn. apply andb_prop in Hn as [Hc Hn].
    unfold netloc_char_ok in Hc.
    destruct (Ascii.eqb c "/"), (Ascii.eqb c "?"), (Ascii.eqb c "#");
      rewrite ?orb_true_r in Hc; try discriminate.
    simpl. by rewrite IH.
Qed.

Lemma contains_char (c : ascii) (s : string) :
  contains (String c EmptyString) s = negb (str_forallb (fun a => negb (Ascii.eqb a c)) s).
Proof.
  induction s as [|a s IH]; [done|]. simpl. rewrite IH.
  destruct (Ascii.ascii_dec c a) as [->|Hne].
  - rewrite Ascii.eqb_refl. by destruct s.
  - assert (Hf : Ascii.eqb a c = false) by (apply Ascii.eqb_neq; congruence).
    by rewrite Hf.
Qed.

Lemma netloc_ok_no_bracket (n : string) :
  netloc_ok n = true ->
  contains "[" n = false /\ contains "]" n = false.
Proof.
  intros Hn. rewrite !contains_char. unfold netloc_ok in Hn.
  induction n as [|c n IH]; [done|]. simpl in *.
  apply andb_prop in Hn as [Hc Hn]. unfold netloc_char_ok in Hc.
  destruct (Ascii.eqb c "["), (Ascii.eqb c "]"); rewrite ?orb_true_r in Hc; try discriminate.
  simpl. by apply IH.
Qed.



(** ** Cleanup *)

Lemma gset_filter_idem (P : string -> Prop) `{!forall x, Decision (P x)} (X : gset string) :
  filter P (filter P X) = filter P X.
Proof. apply set_eq. intros x. rewrite !elem_of_filter. tauto. Qed.

Lemma has_locked_dir_under_true (w : World) (d l : string) :
  l ∈ dirs w -> l ∈ locked w -> (l = d \/ under d l = true) -> has_locked_dir_under w d = true.
Proof. intros Hd Hl Hu. unfold has_locked_dir_under. apply bool_decide_eq_true. by exists l. Qed.

Lemma has_locked_dir_under_elim (w : World) (d : string) :
  has_locked_dir_under w d = true ->
  exists l, l ∈ dirs w /\ l ∈ locked w /\ (l = d \/ under d l = true).
Proof. unfold has_locked_dir_under. rewrite bool_decide_eq_true. intros (l & ? & ? & ?). by exists l. Qed.

(** A second [rmtree] of the same path finds nothing more it can remove. *)
Lemma rmtree_fix (p : string) (w : World) :
  (rmtree p (rmtree p w).2).2 = (rmtree p w).2.
Proof.
  unfold rmtree. destruct (bool_decide (p ∈ dirs w)) eqn:Hp.
  - set (fs := filter (fun kv : string * bytes => ~ (under p kv.1 = true /\ kv.1 ∉ locked w))
                 (files w)).
    set (ds := filter (fun d => ~ ((d = p \/ under p d = true) /\ has_file_under fs d = false
                                   /\ has_locked_dir_under w d = false))
                 (dirs w)).
    assert (Hw : (if bool_decide (p ∈ ds)
                  then (Err (OSError p), mkWorld fs ds (locked w) (attempts w))
                  else (Ok tt, mkWorld fs ds (locked w) (attempts w))).2
                 = mkWorld fs ds (locked w) (attempts w))
      by (by destruct (bool_decide (p ∈ ds))).
    rewrite Hw. cbn [files dirs locked attempts].
    destruct (bool_decide (p ∈ ds)); [|done].
    assert (Hfs : filter (fun kv : string * bytes => ~ (under p kv.1 = true /\ kv.1 ∉ locked w))
                    fs = fs).
    { unfold fs. apply map_filter_filter_r. intros i x _ H. exact H. }
    rewrite Hfs.
    assert (Hds : filter (fun d => ~ ((d = p \/ under p d = true) /\ has_file_under fs d = false
                    /\ has_locked_dir_under (mkWorld fs ds (locked w) (attempts w)) d = false))
                    ds = ds).
    { apply set_eq. intros x. rewrite elem_of_filter. split; [tauto|].
      intros Hx. split; [|exact Hx]. intros (Hu & Hf & Hl).
      pose proof Hx as Hx'. unfold ds in Hx'. apply elem_of_filter in Hx' as [Hn Hxd].
      destruct (has_locked_dir_under w x) eqn:Hlw; [|tauto].
      apply has_locked_dir_under_elim in Hlw as (l & Hld & Hll & Hlx).
      assert (Hlds : l ∈ ds).
      { unfold ds. apply elem_of_filter. split; [|exact Hld].
        intros (_ & _ & Hl'). by rewrite (has_locked_dir_under_true w l l Hld Hll (or_introl eq_refl)) in Hl'. }
      by rewrite (has_locked_dir_under_true (mkWorld fs ds (locked w) (attempts w)) x l Hlds Hll Hlx)
        in Hl. }
    rewrite Hds. by destruct (bool_decide (p ∈ ds)).
  - cbn [snd]. by rewrite Hp.
Qed.

Lemma cleanup_all_eq (temp_dir : string) (w : World) :
  cleanup_all temp_dir w
  = (Ok tt, if path_exists temp_dir w then (rmtree temp_dir w).2 else w).
Proof.
  unfold cleanup_all, catch, bind, exists_, ret.
  destruct (path_exists temp_dir w); [|done].
  by destruct (rmtree temp_dir w) as [[[]|e] w'].
Qed.

(** ** The acquisition chain *)

Lemma makedirs_attempts (p : string) (w : World) : attempts (makedirs p w).2 = attempts w.
Proof. unfold makedirs. by repeat case_match. Qed.

Lemma str_app_assoc (a b c : string) : a +:+ (b +:+ c) = (a +:+ b) +:+ c.
Proof. induction a as [|x a IH]; [done|]. rewrite !str_app_cons. by rewrite IH. Qed.

Lemma strip_prefix_app (pre s r : string) : strip_prefix pre s = Some r -> s = pre +:+ r.
Proof.
  revert s; induction pre as [|a pre IH]; intros s H.
  - simpl in H. injection H as ->. by rewrite str_app_empty.
  - destruct s as [|b s]; [discriminate|]. simpl in H.
    destruct (Ascii.eqb a b) eqn:E; [|discriminate]. apply Ascii.eqb_eq in E as ->.
    rewrite str_app_cons. f_equal. by apply IH.
Qed.

Lemma contains_of_prefix (needle hay : string) :
  String.prefix needle hay = true -> contains needle hay = true.
Proof. intros H. destruct hay; cbn [contains]; by rewrite H. Qed.

(** A listed name joined to its directory is the path it was listed for. *)
Lemma entry_name_path (dir q n : string) : entry_name dir q = Some n -> path_join dir n = q.
Proof.
  unfold entry_name. destruct (strip_prefix (dir_prefix dir) q) as [m|] eqn:Hs; [|discriminate].
  destruct (negb (String.eqb m "") && negb (contains "/" m)) eqn:Hm; [|discriminate].
  intros [= <-]. apply strip_prefix_app in Hs as ->.
  apply andb_prop in Hm as [_ Hm]. apply negb_true_iff in Hm.
  assert (Hp : String.prefix "/" m = false).
  { destruct (String.prefix "/" m) eqn:E; [|done].
    apply contains_of_prefix in E. congruence. }
  unfold path_join, dir_prefix. rewrite Hp.
  destruct (String.eqb dir "" || endswith dir "/"); [done|].
  by rewrite str_app_assoc.
Qed.

Lemma listdir_entry_exists (dir file : string) (w : World) :
  file ∈ omap (fun kv : string * bytes => entry_name dir kv.1) (map_to_list (files w))
         ++ omap (entry_name dir) (elements (dirs w)) ->
  path_exists (path_join dir file) w = true.
Proof.
  rewrite elem_of_app, !list_elem_of_omap. unfold path_exists.
  intros [([q d] & Hin & He) | (q & Hin & He)]; cbn [fst] in He;
    apply entry_name_path in He as ->.
  - apply elem_of_map_to_list in Hin. apply orb_true_iff. right.
    apply bool_decide_eq_true. rewrite Hin. by eexists.
  - apply elem_of_elements in Hin. apply orb_true_iff. left.
    by apply bool_decide_eq_true.
Qed.

(** Every tool wrapper returns normally, logs itself once, and a path it
    returns exists. *)
Lemma download_with_tool_spec (o : Oracle) (s : strategy) (exts : list string)
    (url dir : string) (w : World) :
  exists r w1,
    download_with_tool o s exts url dir w = (Ok r, w1)
    /\ attempts w1 = attempts w ++ [(s, r)]
    /\ (forall p, r = Some p -> path_exists p w1 = true).
Proof.
  unfold download_with_tool, attempt, bind, catch, ret, raise, record_attempt.
  destruct (tool_works o s); cbn [negb].
  2:{ eexists None, _. split; [reflexivity|]. split; [reflexivity|done]. }
  unfold tool_writes. cbn beta iota.
  set (w2 := mkWorld _ (dirs w) (locked w) (attempts w)).
  destruct (returncode (run_tool o s url)) as [rc|].
  2:{ eexists None, _. split; [reflexivity|]. split; [reflexivity|done]. }
  destruct (Z.eqb rc 0).
  2:{ eexists None, _. split; [reflexivity|]. split; [reflexivity|done]. }
  unfold listdir. destruct (bool_decide (dir ∈ dirs w2)).
  2:{ eexists None, _. split; [reflexivity|]. split; [reflexivity|done]. }
  destruct (List.find _ _) as [file|] eqn:Hf.
  2:{ eexists None, _. split; [reflexivity|]. split; [reflexivity|done]. }
  eexists (Some (path_join dir file)), _. split; [reflexivity|]. split; [reflexivity|].
  intros p [= <-]. apply find_some in Hf as [Hin _]. apply list_elem_of_In in Hin.
  apply listdir_entry_exists in Hin. exact Hin.
Qed.

(** Likewise for the two HTTP wrappers. *)
Lemma download_http_spec (o : Oracle) (s : strategy) (url output_path : string) (w : World) :
  exists r w1,
    download_http o s url output_path w = (Ok r, w1)
    /\ attempts w1 = attempts w ++ [(s, r)]
    /\ (forall p, r = Some p -> path_exists p w1 = true).
Proof.
  unfold download_http, attempt, bind, catch, ret, raise, record_attempt.
  destruct (status_code (http_get o s url)) as [code|].
  2:{ eexists None, _. split; [reflexivity|]. split; [reflexivity|done]. }
  destruct ((400 <=? code) && (code <? 600)).
  { eexists None, _. split; [reflexivity|]. split; [reflexivity|done]. }
  destruct (content_length_ok (http_get o s url)); cbn [negb].
  2:{ eexists None, _. split; [reflexivity|]. split; [reflexivity|done]. }
  unfold write_file. destruct (bool_decide (output_path ∈ locked w)).
  { eexists None, _. split; [reflexivity|]. split; [reflexivity|done]. }
  destruct (stream_broken (http_get o s url)).
  { eexists None, _. split; [reflexivity|]. split; [reflexivity|done]. }
  eexists (Some output_path), _. split; [reflexivity|]. split; [reflexivity|].
  intros p [= <-]. unfold path_exists. cbn [files dirs]. apply orb_true_iff. right.
  apply bool_decide_eq_true. rewrite lookup_insert_eq. by eexists.
Qed.

Lemma bind_ok {A B} (m : M A) (k : A -> M B) (w w1 : World) (a : A) :
  m w = (Ok a, w1) -> bind m k w = k a w1.
Proof. intros H. unfold bind. by rewrite H. Qed.

Lemma bind_err {A B} (m : M A) (k : A -> M B) (w w1 : World) (e : exn) :
  m w = (Err e, w1) -> bind m k w = (Err e, w1).
Proof. intros H. unfold bind. by rewrite H. Qed.

Lemma catch_ok {A} (m : M A) (h : exn -> M A) (w w1 : World) (a : A) :
  m w = (Ok a, w1) -> catch m h w = (Ok a, w1).
Proof. intros H. unfold catch. by rewrite H. Qed.

(** Only the last entry of a log may hold a path. *)
Ltac solve_only_last :=
  let i := fresh "i" in let x := fresh "x" in
  let Hi := fresh "Hi" in let Hlt := fresh "Hlt" in
  intros i x Hi Hlt;
  repeat (destruct i as [|i]; cbn in Hi, Hlt; [injection Hi as <-; cbn; assumption|]);
  cbn in Hlt; lia.

Lemma download_with_yt_dlp_fallback_spec (o : Oracle) (url dir : string) (w : World) :
  exists log r w1,
    download_with_yt_dlp_fallback o url dir w = (Ok r, w1)
    /\ attempts w1 = attempts w ++ log
    /\ map fst log `prefix_of` fallback_plan url
    /\ (forall i x, log !! i = Some x -> (S i < length log)%nat -> truthy x.2 = false)
    /\ ((truthy r = true /\ exists s, last log = Some (s, r))
        \/ (r = None /\ map fst log = fallback_plan url
            /\ Forall (fun x => truthy x.2 = false) log))
    /\ (forall p, r = Some p -> path_exists p w1 = true).
Proof.
  unfold download_with_yt_dlp_fallback, download_with_ytdlp, download_with_youtubedl,
    download_with_instaloader, fallback_plan.
  destruct (download_with_tool_spec o YtDlp ytdlp_exts url dir w) as (r1 & w1 & H1 & A1 & E1).
  rewrite (bind_ok _ _ _ _ _ H1). cbn beta.
  destruct (truthy r1) eqn:T1.
  { exists [(YtDlp, r1)], r1, w1. split; [reflexivity|]. split; [exact A1|].
    split; [by exists ([YoutubeDl] ++ (if contains "instagram.com" (lower url) then [Instaloader] else []))|].
    split; [solve_only_last|]. split; [left; split; [done|by exists YtDlp]|exact E1]. }
  destruct (download_with_tool_spec o YoutubeDl ytdlp_exts url dir w1)
    as (r2 & w2 & H2 & A2 & E2).
  rewrite (bind_ok _ _ _ _ _ H2). cbn beta.
  destruct (truthy r2) eqn:T2.
  { exists [(YtDlp, r1); (YoutubeDl, r2)], r2, w2. split; [reflexivity|].
    split; [by rewrite A2, A1, <- app_assoc|].
    split; [by exists (if contains "instagram.com" (lower url) then [Instaloader] else [])|].
    split; [solve_only_last|]. split; [left; split; [done|by exists YoutubeDl]|exact E2]. }
  destruct (contains "instagram.com" (lower url)).
  - destruct (download_with_tool_spec o Instaloader instaloader_exts url dir w2)
      as (r3 & w3 & H3 & A3 & E3).
    rewrite (bind_ok _ _ _ _ _ H3). cbn beta.
    destruct (truthy r3) eqn:T3.
    + exists [(YtDlp, r1); (YoutubeDl, r2); (Instaloader, r3)], r3, w3. split; [reflexivity|].
      split; [by rewrite A3, A2, A1, <- !app_assoc|].
      split; [by exists (@nil strategy)|].
      split; [solve_only_last|]. split; [left; split; [done|by exists Instaloader]|exact E3].
    + exists [(YtDlp, r1); (YoutubeDl, r2); (Instaloader, r3)], None, w3. split; [reflexivity|].
      split; [by rewrite A3, A2, A1, <- !app_assoc|].
      split; [by exists (@nil strategy)|].
      split; [solve_only_last|]. split; [|done].
      right. split; [done|]. split; [done|]. by repeat constructor.
  - exists [(YtDlp, r1); (YoutubeDl, r2)], None, w2. split; [reflexivity|].
    split; [by rewrite A2, A1, <- app_assoc|].
    split; [by exists (@nil strategy)|].
    split; [solve_only_last|]. split; [|done].
    right. split; [done|]. split; [done|]. by repeat constructor.
Qed.

Lemma bind_ret {A B} (a : A) (k : A -> M B) (w : World) : bind (ret a) k w = k a w.
Proof. reflexivity. Qed.

Lemma final_ok (r : option string) (w : World) (e : exn) (p : string) :
  r = Some p -> truthy r = true -> path_exists p w = true ->
  (match r with
   | Some p =>
       bind (if String.eqb p "" then ret false else exists_ p)
         (fun found => if found then ret p else raise e)
   | None => raise e
   end) w = (Ok p, w).
Proof.
  intros -> T E. cbn [truthy] in T. apply negb_true_iff in T. rewrite T.
  unfold bind, exists_. by rewrite E.
Qed.

Lemma final_err (r : option string) (w : World) (e : exn) :
  truthy r = false ->
  (match r with
   | Some p =>
       bind (if String.eqb p "" then ret false else exists_ p)
         (fun found => if found then ret p else raise e)
   | None => raise e
   end) w = (Err e, w).
Proof.
  destruct r as [p|]; [|done]. cbn [truthy]. intros T. apply negb_false_iff in T.
  by rewrite T.
Qed.

Lemma only_last_app (l1 l2 : list (strategy * option string)) :
  Forall (fun x => truthy x.2 = false) l1 ->
  (forall i x, l2 !! i = Some x -> (S i < length l2)%nat -> truthy x.2 = false) ->
  forall i x, (l1 ++ l2) !! i = Some x -> (S i < length (l1 ++ l2))%nat -> truthy x.2 = false.
Proof.
  intros F O i x Hi Hlt. rewrite length_app in Hlt.
  destruct (decide (i < length l1)%nat) as [Hl|Hl].
  - rewrite lookup_app_l in Hi by lia. rewrite Forall_lookup in F. eauto.
  - rewrite lookup_app_r in Hi by lia. apply (O (i - length l1)%nat); [done|lia].
Qed.

Lemma get_platform_type_is_video_platform (check : string -> bool) (url : string) :
  match get_platform_type check url, is_video_platform check url with
  | Ok _, Ok _ => exists n, urlsplit_netloc check (lower url) = Ok n
  | Err e, Err e' => e = e' /\ urlsplit_netloc check (lower url) = Err e
  | _, _ => False
  end.
Proof.
  unfold get_platform_type, is_video_platform.
  destruct (urlsplit_netloc check (lower url)); eauto.
Qed.

Lemma download_video_body_trace (check : string -> bool) (o : Oracle)
    (downloads_dir url filename : string) (w : World) :
  exists log r w',
    download_video_body check o downloads_dir url filename w = (r, w')
    /\ attempts w' = attempts w ++ log
    /\ map fst log `prefix_of` chain_plan check url
    /\ (forall i x, log !! i = Some x -> (S i < length log)%nat -> truthy x.2 = false)
    /\ (forall p, r = Ok p ->
          path_exists p w' = true /\ truthy (Some p) = true
          /\ exists s, last log = Some (s, Some p))
    /\ (forall e, r = Err e ->
          (Forall (fun x => truthy x.2 = false) log /\ map fst log = chain_plan check url)
          \/ (log = [] /\ (makedirs (path_join downloads_dir (str_int (clock o))) w).1 <> Ok tt))
    /\ (forall e, urlsplit_netloc check (lower url) = Err e -> log = [])
    /\ (forall e, (makedirs (path_join downloads_dir (str_int (clock o))) w).1 = Err e ->
          log = [] /\ r = Err e).
Proof.
  unfold download_video_body. cbn zeta.
  set (D := path_join downloads_dir (str_int (clock o))).
  assert (A0 : attempts (makedirs D w).2 = attempts w) by apply makedirs_attempts.
  destruct (makedirs D w) as [[[]|e0] w0] eqn:H0; cbn [snd] in A0.
  2: {
    rewrite (bind_err _ _ _ _ _ H0).
    exists [], (Err e0), w0. split; [reflexivity|]. split; [by rewrite A0, app_nil_r|].
    split; [by exists (chain_plan check url)|]. split; [intros i x Hi; by rewrite lookup_nil in Hi|].
    split; [discriminate|].
    split; [intros _ _; right; split; [reflexivity|intros Hc; discriminate Hc]|].
    split; [intros; reflexivity|]. intros e [= <-]. split; reflexivity. }
  rewrite (bind_ok _ _ _ _ _ H0). cbn beta.
  pose proof (get_platform_type_is_video_platform check url) as Hag.
  destruct (get_platform_type check url) as [t|e] eqn:Hg;
    destruct (is_video_platform check url) as [b|e'] eqn:Hv; try contradiction.
  2: {
    destruct Hag as [<- Hu].
    rewrite (bind_err _ _ w0 w0 e); [|reflexivity].
    exists [], (Err e), w0. split; [reflexivity|]. split; [by rewrite A0, app_nil_r|].
    split; [by exists (chain_plan check url)|]. split; [intros i x Hi; by rewrite lookup_nil in Hi|].
    split; [discriminate|].
    split; [intros _ _; left; split; [apply List.Forall_nil|unfold chain_plan; by rewrite ?Hg, ?Hv]|].
    split; [intros; reflexivity|]. intros e2 He2; discriminate He2. }
  destruct Hag as [n Hu].
  assert (Hne : forall e, urlsplit_netloc check (lower url) = Err e -> False)
    by (intros e He; congruence).
  assert (Hplan : chain_plan check url =
    if b then fallback_plan url
      ++ (if bool_decide (t ∈ ["youtube"; "instagram"; "tiktok"]) then [EnhancedDirect]
          else [])
      ++ [Direct]
    else [Direct]) by (unfold chain_plan; rewrite ?Hg, ?Hv; by destruct b).
  rewrite (bind_ok _ _ w0 w0 t); [|reflexivity]. cbn beta.
  rewrite (bind_ok _ _ w0 w0 b); [|reflexivity]. cbn beta.
  destruct b.
  - destruct (download_with_yt_dlp_fallback_spec o url D w0)
      as (log1 & r1 & w1 & HF & A1 & P1 & OL1 & [[T1 [s1 L1]] | (-> & M1 & F1)] & E1).
    + (* the fallback tools yield a file *)
      rewrite (bind_ok _ _ _ _ _ HF). cbn beta. rewrite T1. cbn iota.
      rewrite bind_ret. cbn [andb]. rewrite bind_ret. rewrite T1. cbn iota.
      rewrite bind_ret.
      destruct r1 as [p|]; [|discriminate T1].
      rewrite (final_ok (Some p) w1 _ p eq_refl T1 (E1 p eq_refl)).
      exists log1, (Ok p), w1. split; [reflexivity|]. split; [by rewrite A1, A0|].
      split; [rewrite Hplan; by apply prefix_app_r|]. split; [exact OL1|].
      split; [intros p' [= <-]; split; [exact (E1 p eq_refl)|split; [assumption|by exists s1]]|].
      split; [discriminate|]. split; [intros e He; by destruct (Hne e He)|intros e He; discriminate He].
    + rewrite (bind_ok _ _ _ _ _ HF). cbn beta. cbn [truthy].
      rewrite (bind_ok _ _ w1 w1 true); [|reflexivity]. cbn [andb].
      destruct (bool_decide (t ∈ ["youtube"; "instagram"; "tiktok"])) eqn:Hb.
      * unfold download_direct_with_enhanced_headers.
        destruct (download_http_spec o EnhancedDirect url (path_join D ("alternative_" +:+ filename)) w1)
          as (r2 & w2 & H2 & A2 & E2).
        rewrite (bind_ok _ _ _ _ _ (catch_ok _ _ _ _ _ H2)). cbn beta.
        destruct (truthy r2) eqn:T2.
        -- rewrite bind_ret.
           destruct r2 as [p|]; [|discriminate T2].
           rewrite (final_ok (Some p) w2 _ p eq_refl T2 (E2 p eq_refl)).
           exists (log1 ++ [(EnhancedDirect, Some p)]), (Ok p), w2.
           split; [reflexivity|]. split; [by rewrite A2, A1, A0, <- app_assoc|].
           split; [rewrite Hplan, ?Hb, map_app, M1; apply prefix_app; by exists [Direct]|].
           split; [apply only_last_app; [exact F1|solve_only_last]|].
           split; [intros p' [= <-]; split; [exact (E2 p eq_refl)|split; [assumption|exists EnhancedDirect; apply last_snoc]]|].
           split; [discriminate|]. split; [intros e He; by destruct (Hne e He)|intros e He; discriminate He].
        -- unfold download_direct.
           destruct (download_http_spec o Direct url (path_join D filename) w2)
             as (r3 & w3 & H3 & A3 & E3).
           rewrite (bind_ok _ _ _ _ _ H3). cbn beta.
           destruct (truthy r3) eqn:T3.
           ++ destruct r3 as [p|]; [|discriminate T3].
              rewrite (final_ok (Some p) w3 _ p eq_refl T3 (E3 p eq_refl)).
              exists (log1 ++ [(EnhancedDirect, r2); (Direct, Some p)]), (Ok p), w3.
              split; [reflexivity|]. split; [by rewrite A3, A2, A1, A0, <- !app_assoc|].
              split; [rewrite Hplan, ?Hb, map_app, M1; reflexivity|].
              split; [apply only_last_app; [exact F1|solve_only_last]|].
              split; [intros p' [= <-]; split; [exact (E3 p eq_refl)|split; [assumption|exists Direct; by rewrite last_app_cons]]|].
              split; [discriminate|]. split; [intros e He; by destruct (Hne e He)|intros e He; discriminate He].
           ++ rewrite (final_err r3 w3 _ T3).
              eexists (log1 ++ [(EnhancedDirect, r2); (Direct, r3)]), _, w3.
              split; [reflexivity|]. split; [by rewrite A3, A2, A1, A0, <- !app_assoc|].
              split; [rewrite Hplan, ?Hb, map_app, M1; reflexivity|].
              split; [apply only_last_app; [exact F1|solve_only_last]|].
              split; [discriminate|].
              split; [intros _ _; left; split;
                      [apply Forall_app; split; [exact F1|by repeat constructor]
                      |rewrite Hplan, ?Hb, map_app, M1; reflexivity]|].
              split; [intros e He; by destruct (Hne e He)|intros e He; discriminate He].
      * cbn iota. rewrite bind_ret. cbn [truthy]. unfold download_direct.
        destruct (download_http_spec o Direct url (path_join D filename) w1)
          as (r3 & w3 & H3 & A3 & E3).
        rewrite (bind_ok _ _ _ _ _ H3). cbn beta.
        destruct (truthy r3) eqn:T3.
        -- destruct r3 as [p|]; [|discriminate T3].
           rewrite (final_ok (Some p) w3 _ p eq_refl T3 (E3 p eq_refl)).
           exists (log1 ++ [(Direct, Some p)]), (Ok p), w3.
           split; [reflexivity|]. split; [by rewrite A3, A1, A0, <- !app_assoc|].
           split; [rewrite Hplan, ?Hb, map_app, M1; reflexivity|].
           split; [apply only_last_app; [exact F1|solve_only_last]|].
           split; [intros p' [= <-]; split; [exact (E3 p eq_refl)|split; [assumption|exists Direct; apply last_snoc]]|].
           split; [discriminate|]. split; [intros e He; by destruct (Hne e He)|intros e He; discriminate He].
        -- rewrite (final_err r3 w3 _ T3).
           eexists (log1 ++ [(Direct, r3)]), _, w3.
           split; [reflexivity|]. split; [by rewrite A3, A1, A0, <- !app_assoc|].
           split; [rewrite Hplan, ?Hb, map_app, M1; reflexivity|].
           split; [apply only_last_app; [exact F1|solve_only_last]|].
           split; [discriminate|].
           split; [intros _ _; left; split;
                   [apply Forall_app; split; [exact F1|by repeat constructor]
                   |rewrite Hplan, ?Hb, map_app, M1; reflexivity]|].
           split; [intros e He; by destruct (Hne e He)|intros e He; discriminate He].
  - cbn iota. rewrite bind_ret. cbn [truthy].
    rewrite (bind_ok _ _ w0 w0 false); [|reflexivity]. cbn [andb].
    rewrite bind_ret. cbn [truthy]. unfold download_direct.
    destruct (download_http_spec o Direct url (path_join D filename) w0)
      as (r3 & w3 & H3 & A3 & E3).
    rewrite (bind_ok _ _ _ _ _ H3). cbn beta.
    destruct (truthy r3) eqn:T3.
    + destruct r3 as [p|]; [|discriminate T3].
      rewrite (final_ok (Some p) w3 _ p eq_refl T3 (E3 p eq_refl)).
      exists [(Direct, Some p)], (Ok p), w3.
      split; [reflexivity|]. split; [by rewrite A3, A0|].
      split; [rewrite Hplan; reflexivity|].
      split; [solve_only_last|].
      split; [intros p' [= <-]; split; [exact (E3 p eq_refl)|split; [assumption|by exists Direct]]|].
      split; [discriminate|]. split; [intros e He; by destruct (Hne e He)|intros e He; discriminate He].
    + rewrite (final_err r3 w3 _ T3).
      eexists [(Direct, r3)], _, w3.
      split; [reflexivity|]. split; [by rewrite A3, A0|].
      split; [rewrite Hplan; reflexivity|].
      split; [solve_only_last|].
      split; [discriminate|].
      split; [intros _ _; left; split; [by repeat constructor|by rewrite Hplan]|].
      split; [intros e He; by destruct (Hne e He)|intros e He; discriminate He].
Qed.

Lemma download_video_trace (check : string -> bool) (o : Oracle)
    (downloads_dir url filename : string) (w : World) :
  exists log,
    attempts (download_video check o downloads_dir url filename w).2 = attempts w ++ log
    /\ map fst log `prefix_of` chain_plan check url
    /\ (forall i x, log !! i = Some x -> (S i < length log)%nat -> truthy x.2 = false)
    /\ (forall e, (makedirs (path_join downloads_dir (str_int (clock o))) w).1 = Err e -> log = [])
    /\ match (download_video check o downloads_dir url filename w).1 with
       | Ok p =>
           path_exists p (download_video check o downloads_dir url filename w).2 = true
           /\ truthy (Some p) = true /\ exists s, last log = Some (s, Some p)
       | Err _ =>
           (Forall (fun x => truthy x.2 = false) log /\ map fst log = chain_plan check url)
           \/ (log = [] /\ (makedirs (path_join downloads_dir (str_int (clock o))) w).1 <> Ok tt)
       end.
Proof.
  destruct (download_video_body_trace check o downloads_dir url filename w)
    as (log & r & w' & H & A & P & OL & OK & ER & _ & MK).
  assert (Hd : download_video check o downloads_dir url filename w
               = (match r with
                  | Ok p => Ok p
                  | Err e => Err (Exception ("Failed to download video: " +:+ exn_msg e))
                  end, w'))
    by (unfold download_video, catch; rewrite H; by destruct r).
  exists log. rewrite Hd. cbn [fst snd].
  split; [exact A|]. split; [exact P|]. split; [exact OL|].
  split; [intros e He; exact (proj1 (MK e He))|].
  destruct r as [p|e]; [exact (OK p eq_refl)|exact (ER e eq_refl)].
Qed.


Lemma elem_of_prefix_of {A} (x : A) (l1 l2 : list A) :
  l1 `prefix_of` l2 -> x ∈ l1 -> x ∈ l2.
Proof. intros [k ->] Hx. rewrite elem_of_app. by left. Qed.

(** ** C1 *)

(** C1: [split_large_file] returns the file itself, untouched, when it is at
    most [MAX_FILE_SIZE] bytes; above the limit it returns ceil(size /
    chunk_size) part files whose contents, concatenated in order, are the bytes
    of the original file.  (No part path is write-protected.) *)
Theorem split_large_file_roundtrip (w : World) (file_path : string) (d : bytes)
    (chunk_size : Z) :
  files w !! file_path = Some d -> 0 < chunk_size -> locked w = ∅ ->
  match split_large_file file_path chunk_size w with
  | (r, w') =>
      (Z.of_nat (length d) <= MAX_FILE_SIZE -> r = Ok [file_path] /\ w' = w) /\
      (MAX_FILE_SIZE < Z.of_nat (length d) ->
         exists parts bs, r = Ok parts
           /\ Z.of_nat (length parts)
              = (Z.of_nat (length d) + chunk_size - 1) / chunk_size
           /\ Forall2 (fun p b => files w' !! p = Some b) parts bs
           /\ concat bs = d)
  end.
Proof.
  intros Hd Hc Hlk.
  destruct (Z_le_gt_dec (Z.of_nat (length d)) MAX_FILE_SIZE) as [Hs|Hs].
  - rewrite (split_large_file_small w file_path d chunk_size Hd Hs).
    split; [done | lia].
  - destruct (split_large_file_big w file_path d chunk_size Hd ltac:(lia) Hc)
      as (w' & Hrun & _ & _ & _ & Hin & _).
    { intros i _. rewrite Hlk. set_solver. }
    rewrite Hrun. split; [lia|]. intros _.
    exists (map (part_name file_path) (seq 0 (length (split_blocks chunk_size d)))),
      (split_blocks chunk_size d).
    split; [done|]. split.
    { rewrite length_map, length_seq. by apply split_blocks_length. }
    split; [|by apply split_blocks_concat].
    apply Forall2_same_length_lookup_2.
    { by rewrite length_map, length_seq. }
    intros i p b Hp Hb.
    assert (Hi : (i < length (split_blocks chunk_size d))%nat)
      by (apply lookup_lt_Some in Hb; done).
    rewrite lookup_map_seq0 in Hp by done. injection Hp as <-.
    rewrite Hin by done. done.
Qed.

Lemma split_large_file_roundtrip_witness :
  files (world_with "/tmp/v.mp4" [Byte.x61; Byte.x62; Byte.x63] ∅) !! "/tmp/v.mp4"
    = Some [Byte.x61; Byte.x62; Byte.x63]
  /\ 0 < 2 /\ locked (world_with "/tmp/v.mp4" [Byte.x61; Byte.x62; Byte.x63] ∅) = ∅
  /\ match split_large_file "/tmp/v.mp4" 2
             (world_with "/tmp/v.mp4" [Byte.x61; Byte.x62; Byte.x63] ∅) with
     | (r, w') =>
         (Z.of_nat 3 <= MAX_FILE_SIZE -> r = Ok ["/tmp/v.mp4"]
            /\ w' = world_with "/tmp/v.mp4" [Byte.x61; Byte.x62; Byte.x63] ∅) /\
         (MAX_FILE_SIZE < Z.of_nat 3 ->
            exists parts bs, r = Ok parts
              /\ Z.of_nat (length parts) = (Z.of_nat 3 + 2 - 1) / 2
              /\ Forall2 (fun p b => files w' !! p = Some b) parts bs
              /\ concat bs = [Byte.x61; Byte.x62; Byte.x63])
     end.
Proof.
  split; [reflexivity|]. split; [lia|]. split; [reflexivity|].
  exact (split_large_file_roundtrip _ "/tmp/v.mp4" [Byte.x61; Byte.x62; Byte.x63] 2
           (world_with_lookup _ _ _) ltac:(lia) eq_refl).
Defined.

(** ** C10 *)

(** C10: a file over [MAX_FILE_SIZE] but no larger than [chunk_size] is not
    returned as is: [split_large_file] writes one new file
    [<base>_part000<ext>], distinct from the original path and holding exactly
    the original bytes, and returns that path alone.  (The part path is not
    write-protected.) *)
Theorem split_large_file_one_chunk (w : World) (file_path : string) (d : bytes)
    (chunk_size : Z) :
  files w !! file_path = Some d -> locked w = ∅ ->
  MAX_FILE_SIZE < Z.of_nat (length d) <= chunk_size ->
  (split_large_file file_path chunk_size w).1
    = Ok [(splitext file_path).1 +:+ "_part000" +:+ (splitext file_path).2]
  /\ (splitext file_path).1 +:+ "_part000" +:+ (splitext file_path).2 <> file_path
  /\ files (split_large_file file_path chunk_size w).2
       !! ((splitext file_path).1 +:+ "_part000" +:+ (splitext file_path).2) = Some d.
Proof.
  intros Hd Hlk [Hs Hc].
  assert (Hb : split_blocks chunk_size d = [d]).
  { apply split_blocks_single; [|lia]. unfold MAX_FILE_SIZE in Hs. lia. }
  destruct (split_large_file_big w file_path d chunk_size Hd Hs ltac:(unfold MAX_FILE_SIZE in *; lia))
    as (w' & Hrun & _ & _ & _ & Hin & _).
  { intros i _. rewrite Hlk. set_solver. }
  rewrite Hrun. cbn [fst snd]. rewrite Hb. change (length [d]) with 1%nat.
  assert (Hp : part_name file_path 0
               = (splitext file_path).1 +:+ "_part000" +:+ (splitext file_path).2)
    by reflexivity.
  split; [by rewrite <- Hp|]. split.
  - rewrite <- Hp. apply chunk_path_neq_source.
  - rewrite <- Hp, Hin, Hb; [done | rewrite Hb; simpl; lia].
Qed.

Lemma split_large_file_one_chunk_witness :
  files (world_with sample_path big_file ∅) !! sample_path = Some big_file
  /\ locked (world_with sample_path big_file ∅) = ∅
  /\ MAX_FILE_SIZE < Z.of_nat (length big_file) <= MAX_FILE_SIZE + 1
  /\ ((split_large_file sample_path (MAX_FILE_SIZE + 1)
        (world_with sample_path big_file ∅)).1
      = Ok [(splitext sample_path).1 +:+ "_part000" +:+ (splitext sample_path).2]
     /\ (splitext sample_path).1 +:+ "_part000" +:+ (splitext sample_path).2
        <> sample_path
     /\ files (split_large_file sample_path (MAX_FILE_SIZE + 1)
                (world_with sample_path big_file ∅)).2
          !! ((splitext sample_path).1 +:+ "_part000" +:+ (splitext sample_path).2)
        = Some big_file).
Proof.
  assert (H3 : MAX_FILE_SIZE < Z.of_nat (length big_file) <= MAX_FILE_SIZE + 1)
    by (rewrite big_file_length; lia).
  split; [apply world_with_lookup|]. split; [reflexivity|]. split; [exact H3|].
  exact (split_large_file_one_chunk (world_with sample_path big_file ∅) sample_path
           big_file (MAX_FILE_SIZE + 1) (world_with_lookup _ _ _) eq_refl H3).
Defined.

(** ** C9 *)

(** C9 (as the code does it): every exception raised while splitting is
    caught and [split_large_file] returns [[file_path]]; the world is left as
    the failure found it, so the part files written before the failing one
    stay on disk. *)
Theorem split_large_file_error_keeps_parts (w : World) (file_path : string) (d : bytes)
    (chunk_size : Z) (j : nat) :
  files w !! file_path = Some d -> MAX_FILE_SIZE < Z.of_nat (length d) ->
  0 < chunk_size -> (j < length (split_blocks chunk_size d))%nat ->
  (forall i, (i < j)%nat -> part_name file_path i ∉ locked w) ->
  part_name file_path j ∈ locked w ->
  (forall w0 e w1, split_body file_path chunk_size w0 = (Err e, w1) ->
     split_large_file file_path chunk_size w0 = (Ok [file_path], w1))
  /\ exists e w', split_body file_path chunk_size w = (Err e, w')
     /\ split_large_file file_path chunk_size w = (Ok [file_path], w')
     /\ forall i, (i < j)%nat ->
          files w' !! part_name file_path i = split_blocks chunk_size d !! i.
Proof.
  intros Hd Hs Hc Hj Hl Hlk. split.
  { intros w0 e w1 H. unfold split_large_file, catch. by rewrite H. }
  destruct (split_large_file_big_fail w file_path d chunk_size j Hd Hs Hc Hj Hl Hlk)
    as (w' & H1 & H2 & H3).
  by exists (OSError (part_name file_path j)), w'.
Qed.

Lemma split_large_file_error_keeps_parts_witness :
  files (world_with sample_path big_file {[part_name sample_path 1]}) !! sample_path
    = Some big_file
  /\ MAX_FILE_SIZE < Z.of_nat (length big_file) /\ 0 < MAX_FILE_SIZE
  /\ (1 < length (split_blocks MAX_FILE_SIZE big_file))%nat
  /\ (forall i, (i < 1)%nat -> part_name sample_path i
        ∉ locked (world_with sample_path big_file {[part_name sample_path 1]}))
  /\ part_name sample_path 1
       ∈ locked (world_with sample_path big_file {[part_name sample_path 1]})
  /\ ((forall w0 e w1, split_body sample_path MAX_FILE_SIZE w0 = (Err e, w1) ->
         split_large_file sample_path MAX_FILE_SIZE w0 = (Ok [sample_path], w1))
      /\ exists e w', split_body sample_path MAX_FILE_SIZE
                        (world_with sample_path big_file {[part_name sample_path 1]})
                      = (Err e, w')
         /\ split_large_file sample_path MAX_FILE_SIZE
              (world_with sample_path big_file {[part_name sample_path 1]})
            = (Ok [sample_path], w')
         /\ forall i, (i < 1)%nat ->
              files w' !! part_name sample_path i
              = split_blocks MAX_FILE_SIZE big_file !! i).
Proof.
  assert (H1 : MAX_FILE_SIZE < Z.of_nat (length big_file))
    by (rewrite big_file_length; lia).
  assert (H2 : (1 < length (split_blocks MAX_FILE_SIZE big_file))%nat)
    by (rewrite big_file_blocks; lia).
  assert (H3 : forall i, (i < 1)%nat -> part_name sample_path i
        ∉ locked (world_with sample_path big_file {[part_name sample_path 1]})).
  { intros i Hi. simpl. rewrite not_elem_of_singleton. apply part_name_neq. lia. }
  assert (H4 : part_name sample_path 1
       ∈ locked (world_with sample_path big_file {[part_name sample_path 1]}))
    by (unfold world_with; cbn [locked]; by apply elem_of_singleton_2).
  split; [apply world_with_lookup|]. split; [exact H1|]. split; [reflexivity|].
  split; [exact H2|]. split; [exact H3|]. split; [exact H4|].
  exact (split_large_file_error_keeps_parts _ sample_path big_file MAX_FILE_SIZE 1
           (world_with_lookup _ _ _) H1 eq_refl H2 H3 H4).
Defined.

(** C9 fails as stated: writing part 1 fails, [split_large_file] falls back to
    the original path, and part 0, absent before, stays on disk. *)
Lemma split_large_file_error_leaves_part :
  exists w',
    split_large_file sample_path MAX_FILE_SIZE
      (world_with sample_path big_file {[part_name sample_path 1]})
    = (Ok [sample_path], w')
    /\ files (world_with sample_path big_file {[part_name sample_path 1]})
         !! part_name sample_path 0 = None
    /\ is_Some (files w' !! part_name sample_path 0).
Proof.
  destruct (split_large_file_big_fail
              (world_with sample_path big_file {[part_name sample_path 1]})
              sample_path big_file MAX_FILE_SIZE 1 (world_with_lookup _ _ _))
    as (w' & _ & Hrun & Hin).
  - rewrite big_file_length; lia.
  - reflexivity.
  - rewrite big_file_blocks; lia.
  - intros i Hi. simpl. rewrite not_elem_of_singleton. apply part_name_neq. lia.
  - unfold world_with; cbn [locked]. by apply elem_of_singleton_2.
  - exists w'. split; [exact Hrun|]. split.
    + simpl. rewrite lookup_insert_ne by (apply not_eq_sym, part_name_not_source).
      apply lookup_empty.
    + rewrite Hin by lia. apply lookup_lt_is_Some. rewrite big_file_blocks. lia.
Qed.

(** ** C2 *)

(** C2 (as the code does it): for a file over [MAX_FILE_SIZE] the handler
    splits with chunk size [MAX_FILE_SIZE] (50 MiB), not [CHUNK_SIZE]: part [i]
    is [<base>_part<i:03d><ext>] and holds the [MAX_FILE_SIZE] bytes read at
    offset [i * MAX_FILE_SIZE], so there are ceil(size / 50 MiB) parts.  (No part
    path is write-protected.) *)
Theorem handler_split_step_max_chunks (w : World) (file_path : string) (d : bytes) :
  files w !! file_path = Some d -> locked w = ∅ ->
  MAX_FILE_SIZE < Z.of_nat (length d) ->
  handler_split_step file_path w = split_large_file file_path MAX_FILE_SIZE w /\
  exists parts, (handler_split_step file_path w).1 = Ok parts
    /\ Z.of_nat (length parts)
       = (Z.of_nat (length d) + MAX_FILE_SIZE - 1) / MAX_FILE_SIZE
    /\ forall i, (i < length parts)%nat ->
         parts !! i = Some (part_name file_path i)
         /\ files (handler_split_step file_path w).2 !! part_name file_path i
            = Some (take (Z.to_nat MAX_FILE_SIZE) (drop (i * Z.to_nat MAX_FILE_SIZE) d)).
Proof.
  intros Hd Hlk Hs. rewrite (handler_split_step_big w file_path d Hd Hs).
  split; [done|].
  destruct (split_large_file_big w file_path d MAX_FILE_SIZE Hd Hs eq_refl)
    as (w' & Hrun & _ & _ & _ & Hin & _).
  { intros i _. rewrite Hlk. set_solver. }
  rewrite Hrun. eexists. split; [reflexivity|]. cbn [snd]. split.
  { rewrite length_map, length_seq. by apply split_blocks_length. }
  intros i Hi. rewrite length_map, length_seq in Hi. split.
  - by apply lookup_map_seq0.
  - rewrite Hin by done. apply split_blocks_lookup; [reflexivity | exact Hi].
Qed.

Lemma handler_split_step_max_chunks_witness :
  files (world_with sample_path big_file ∅) !! sample_path = Some big_file
  /\ locked (world_with sample_path big_file ∅) = ∅
  /\ MAX_FILE_SIZE < Z.of_nat (length big_file)
  /\ (handler_split_step sample_path (world_with sample_path big_file ∅)
      = split_large_file sample_path MAX_FILE_SIZE (world_with sample_path big_file ∅)
     /\ exists parts,
          (handler_split_step sample_path (world_with sample_path big_file ∅)).1 = Ok parts
          /\ Z.of_nat (length parts)
             = (Z.of_nat (length big_file) + MAX_FILE_SIZE - 1) / MAX_FILE_SIZE
          /\ forall i, (i < length parts)%nat ->
               parts !! i = Some (part_name sample_path i)
               /\ files (handler_split_step sample_path
                          (world_with sample_path big_file ∅)).2 !! part_name sample_path i
                  = Some (take (Z.to_nat MAX_FILE_SIZE)
                            (drop (i * Z.to_nat MAX_FILE_SIZE) big_file))).
Proof.
  assert (H1 : MAX_FILE_SIZE < Z.of_nat (length big_file))
    by (rewrite big_file_length; lia).
  split; [apply world_with_lookup|]. split; [reflexivity|]. split; [exact H1|].
  exact (handler_split_step_max_chunks _ sample_path big_file
           (world_with_lookup _ _ _) eq_refl H1).
Defined.

(** C2 fails as stated: a file one byte over the limit is sent in 2 parts,
    where 1 MiB blocks would have made 51. *)
Lemma handler_split_step_not_1MiB :
  exists parts w',
    handler_split_step sample_path (world_with sample_path big_file ∅) = (Ok parts, w')
    /\ length parts = 2%nat
    /\ (Z.of_nat (length big_file) + CHUNK_SIZE - 1) / CHUNK_SIZE = 51.
Proof.
  assert (H1 : MAX_FILE_SIZE < Z.of_nat (length big_file))
    by (rewrite big_file_length; lia).
  rewrite (handler_split_step_big _ sample_path big_file (world_with_lookup _ _ _) H1).
  destruct (split_large_file_big (world_with sample_path big_file ∅) sample_path
              big_file MAX_FILE_SIZE (world_with_lookup _ _ _) H1 eq_refl)
    as (w' & Hrun & _).
  { intros i _. apply not_elem_of_empty. }
  rewrite Hrun. eexists _, w'. split; [reflexivity|]. split.
  - by rewrite length_map, length_seq, big_file_blocks.
  - rewrite big_file_length. reflexivity.
Qed.

(** ** C4 *)

(** C4 (as the code does it): [is_video_platform] raises exactly when
    [get_platform_type] does; otherwise it is true exactly when the tag is
    not [other] or the netloc holds one of reddit.com, pinterest.com,
    snapchat.com, linkedin.com, tumblr.com and discord.com, six hosts the
    classifier tags [other]. *)
Theorem is_video_platform_tag (check : string -> bool) (url : string) :
  match get_platform_type check url with
  | Err e => is_video_platform check url = Err e
  | Ok t =>
      exists netloc, urlsplit_netloc check (lower url) = Ok netloc
      /\ is_video_platform check url
         = Ok (negb (String.eqb t "other")
               || existsb (fun h => contains h netloc) extra_video_hosts)
  end.
Proof.
  unfold get_platform_type, is_video_platform.
  destruct (urlsplit_netloc check (lower url)) as [n|e]; [|reflexivity].
  exists n. split; [reflexivity|]. f_equal.
  unfold video_platforms, extra_video_hosts. cbn -[contains].
  repeat match goal with
         | |- context [contains ?d n] => destruct (contains d n); cbn -[contains]; try done
         end.
Qed.

(** C4 fails as stated: a reddit URL is tagged [other], yet
    [is_video_platform] holds for it. *)
Lemma is_video_platform_reddit :
  get_platform_type (fun _ => true) "https://www.reddit.com/r/videos" = Ok "other"
  /\ is_video_platform (fun _ => true) "https://www.reddit.com/r/videos" = Ok true.
Proof. split; reflexivity. Qed.

(** ** C8 *)


(** ** C6 *)

(** C6: [cleanup_all] never raises; when the workspace path does not exist
    it changes nothing; and a second call right after a first one, whatever
    the first one removed or failed on, leaves the state as it is. *)
Theorem cleanup_all_idempotent (temp_dir : string) (w : World) :
  (cleanup_all temp_dir w).1 = Ok tt
  /\ (path_exists temp_dir w = false -> cleanup_all temp_dir w = (Ok tt, w))
  /\ cleanup_all temp_dir (cleanup_all temp_dir w).2 = (Ok tt, (cleanup_all temp_dir w).2).
Proof.
  rewrite !cleanup_all_eq. split; [done|]. split.
  - intros ->. done.
  - cbn [snd]. f_equal.
    destruct (path_exists temp_dir w) eqn:E; cbn iota; [|by rewrite E].
    destruct (path_exists temp_dir (rmtree temp_dir w).2); [|done].
    apply rmtree_fix.
Qed.

(** ** C3 *)



(** ** C5 *)



(** ** C7 *)

(** C7 (as the code does it): Instaloader is attempted exactly when the URL is a video
    platform, yt-dlp and youtube-dl were attempted first and yielded no path,
    and [instagram.com] occurs anywhere in the lowercased URL, query and
    fragment included; the platform tag plays no part. *)
Theorem download_video_instaloader (check : string -> bool) (o : Oracle)
    (downloads_dir url filename : string) (w : World) :
  exists log,
    attempts (download_video check o downloads_dir url filename w).2 = attempts w ++ log
    /\ (Instaloader ∈ map fst log <->
        is_video_platform check url = Ok true
        /\ contains "instagram.com" (lower url) = true
        /\ exists r0 r1, log !! 0%nat = Some (YtDlp, r0) /\ log !! 1%nat = Some (YoutubeDl, r1)
                         /\ truthy r0 = false /\ truthy r1 = false).
Proof.
  destruct (download_video_trace check o downloads_dir url filename w)
    as (log & A & P & OL & _ & R).
  exists log. split; [exact A|].
  pose proof (get_platform_type_is_video_platform check url) as Hag.
  unfold chain_plan in P, R.
  destruct (get_platform_type check url) as [t|e] eqn:Hg;
    destruct (is_video_platform check url) as [b|e'] eqn:Hv; try contradiction.
  2: { split; [intros Hin; apply (elem_of_prefix_of _ _ _ P) in Hin; by apply elem_of_nil in Hin
              |intros [? _]; discriminate]. }
  destruct b.
  2: { split; [|intros [? _]; discriminate].
       intros Hin; apply (elem_of_prefix_of _ _ _ P) in Hin.
       apply list_elem_of_singleton in Hin. discriminate Hin. }
  unfold fallback_plan in P, R.
  destruct (contains "instagram.com" (lower url)) eqn:Hc.
  2: { split; [|intros (_ & ? & _); discriminate].
       intros Hin; apply (elem_of_prefix_of _ _ _ P) in Hin.
       destruct (bool_decide _); set_solver. }
  destruct log as [|[s0 r0] [|[s1 r1] [|[s2 r2] log']]]; cbn [map fst app] in P |- *.
  - split; [by intros Hin; apply elem_of_nil in Hin|].
    intros (_ & _ & r0 & r1 & H0 & _). discriminate H0.
  - apply prefix_cons_inv_1 in P as ->.
    split; [intros Hin; apply list_elem_of_singleton in Hin; discriminate Hin|].
    intros (_ & _ & r0' & r1' & _ & H1 & _). discriminate H1.
  - pose proof (prefix_cons_inv_1 _ _ _ _ P) as ->.
    apply prefix_cons_inv_2, prefix_cons_inv_1 in P as ->.
    split.
    + intros Hin. rewrite elem_of_cons, list_elem_of_singleton in Hin.
      destruct Hin as [Hin|Hin]; discriminate Hin.
    + intros (_ & _ & r0' & r1' & _ & H1 & _ & T1). injection H1 as <-.
      destruct (download_video check o downloads_dir url filename w).1 as [p|e].
      * destruct R as (_ & T & s & L). cbn in L. injection L as _ E.
        subst r1. congruence.
      * destruct R as [[_ M]|[Hl _]]; [cbn in M; discriminate M|discriminate Hl].
  - pose proof (prefix_cons_inv_1 _ _ _ _ P) as ->.
    apply prefix_cons_inv_2 in P.
    pose proof (prefix_cons_inv_1 _ _ _ _ P) as ->.
    apply prefix_cons_inv_2, prefix_cons_inv_1 in P as ->.
    split.
    + intros _. split; [reflexivity|]. split; [reflexivity|].
      exists r0, r1. split; [reflexivity|]. split; [reflexivity|].
      split; [exact (OL 0%nat (YtDlp, r0) eq_refl ltac:(cbn; lia))|].
      exact (OL 1%nat (YoutubeDl, r1) eq_refl ltac:(cbn; lia)).
    + intros _. rewrite !elem_of_cons. right; right; by left.
Qed.

(** C7 fails as stated: a youtu.be link whose query mentions instagram.com is
    tagged [youtube], yet Instaloader is attempted after yt-dlp and
    youtube-dl fail. *)
Lemma download_video_instaloader_on_youtube :
  get_platform_type (fun _ => true) "https://youtu.be/x?instagram.com" = Ok "youtube"
  /\ map fst (attempts (download_video (fun _ => true) (offline_tools not_found_response)
                          sample_downloads_dir "https://youtu.be/x?instagram.com" "x.mp4"
                          sample_world).2)
     = [YtDlp; YoutubeDl; Instaloader; EnhancedDirect; Direct].
Proof. split; vm_compute; reflexivity. Qed.

(** * Further properties of the code *)

(** A direct fetch that gets no answer, an HTTP error status (400 to 599), an unreadable content-length or a write-protected target returns [None]: it writes no file and only logs the attempt. *)
Theorem download_http_fails_without_writing (o : Oracle) (s : strategy)
    (url output_path : string) (w : World) :
  (status_code (http_get o s url) = None
   \/ (exists code, status_code (http_get o s url) = Some code /\ 400 <= code < 600)
   \/ content_length_ok (http_get o s url) = false
   \/ output_path ∈ locked w) ->
  download_http o s url output_path w
  = (Ok None, mkWorld (files w) (dirs w) (locked w) (attempts w ++ [(s, None)])).
Proof.
  intros H. unfold download_http, attempt, bind, catch, ret, raise, record_attempt, write_file.
  destruct (status_code (http_get o s url)) as [code|] eqn:Es; [|reflexivity].
  destruct (Z.leb_spec 400 code) as [L1|L1], (Z.ltb_spec code 600) as [L2|L2];
    cbn [andb]; try reflexivity.
  all: destruct (content_length_ok (http_get o s url)) eqn:El; cbn [negb]; try reflexivity.
  all: destruct H as [H|[(c' & Hc1 & Hc2)|[H|H]]]; try discriminate.
  all: try (injection Hc1 as <-; lia).
  all: by rewrite bool_decide_true.
Qed.

(** A direct fetch answered with a non-error status and a readable content-length writes the concatenated body to the target path; it returns the path unless the stream broke, in which case the partial file stays behind and it returns [None]. *)
Theorem download_http_writes_body (o : Oracle) (s : strategy) (url output_path : string)
    (w : World) (code : Z) :
  status_code (http_get o s url) = Some code -> ~ (400 <= code < 600) ->
  content_length_ok (http_get o s url) = true -> output_path ∉ locked w ->
  let r := if stream_broken (http_get o s url) then None else Some output_path in
  download_http o s url output_path w
  = (Ok r, mkWorld (<[output_path := concat (body (http_get o s url))]> (files w))
             (dirs w) (locked w) (attempts w ++ [(s, r)])).
Proof.
  intros Hs Hc Hl Hlk r. unfold download_http, attempt, bind, catch, ret, raise,
    record_attempt, write_file.
  rewrite Hs. destruct (Z.leb_spec 400 code), (Z.ltb_spec code 600); cbn [andb];
    try lia.
  all: rewrite Hl; cbn [negb]; rewrite bool_decide_false by done.
  all: unfold r; by destruct (stream_broken (http_get o s url)).
Qed.

(** A downloader tool that is not installed, or whose run does not exit with status 0, yields [None]; whatever files the run left in the output directory stay there. *)
Theorem download_with_tool_no_result (o : Oracle) (s : strategy) (exts : list string)
    (url output_dir : string) (w : World) :
  tool_works o s = false \/ returncode (run_tool o s url) <> Some 0 ->
  download_with_tool o s exts url output_dir w
  = (Ok None,
     mkWorld (if tool_works o s
              then foldr (fun nd m => <[path_join output_dir nd.1 := nd.2]> m) (files w)
                     (output_files (run_tool o s url))
              else files w)
       (dirs w) (locked w) (attempts w ++ [(s, None)])).
Proof.
  intros H. unfold download_with_tool, attempt, bind, catch, ret, raise, record_attempt,
    tool_writes.
  destruct (tool_works o s); cbn [negb]; [|reflexivity].
  destruct H as [H|H]; [discriminate|].
  destruct (returncode (run_tool o s url)) as [rc|]; [|reflexivity].
  destruct (Z.eqb_spec rc 0) as [->|]; [done|reflexivity].
Qed.

Lemma entry_name_shape (dir q n : string) :
  entry_name dir q = Some n -> n <> "" /\ contains "/" n = false.
Proof.
  unfold entry_name. destruct (strip_prefix (dir_prefix dir) q) as [m|]; [|discriminate].
  destruct (String.eqb m "") eqn:E1, (contains "/" m) eqn:E2; cbn; try discriminate.
  intros [= <-]. split; [|done]. intros ->. discriminate.
Qed.

(** When a downloader tool returns a path, the tool works, its run exited with status 0, and the path is an existing entry [output_dir/name] of the output directory whose name carries one of the tool's extensions. *)
Theorem download_with_tool_result (o : Oracle) (s : strategy) (exts : list string)
    (url output_dir p : string) (w w1 : World) :
  download_with_tool o s exts url output_dir w = (Ok (Some p), w1) ->
  tool_works o s = true /\ returncode (run_tool o s url) = Some 0
  /\ exists name, p = path_join output_dir name /\ existsb (endswith name) exts = true
     /\ name <> "" /\ contains "/" name = false /\ path_exists p w1 = true.
Proof.
  unfold download_with_tool, attempt, bind, catch, ret, raise, record_attempt, tool_writes.
  destruct (tool_works o s); cbn [negb]; [|discriminate].
  destruct (returncode (run_tool o s url)) as [rc|]; [|discriminate].
  destruct (Z.eqb_spec rc 0) as [->|]; [|discriminate].
  unfold listdir. cbn [dirs files].
  case_bool_decide; [|discriminate].
  destruct (List.find _ _) as [file|] eqn:Hf; [|discriminate].
  intros [= <- <-]. do 2 (split; [done|]).
  apply find_some in Hf as [Hin Hext]. apply list_elem_of_In in Hin.
  exists file. split; [done|]. split; [done|].
  pose proof (listdir_entry_exists _ _ (mkWorld (foldr (fun nd m => <[path_join output_dir nd.1 := nd.2]> m) (files w) (output_files (run_tool o s url))) (dirs w) (locked w) (attempts w)) Hin) as Hex.
  apply elem_of_app in Hin as [Hin|Hin]; apply list_elem_of_omap in Hin as (q & _ & Hq).
  all: apply entry_name_shape in Hq as [Hn Hc]; repeat split; try done.
Qed.

Lemma split_loop_frame (fuel : nat) (fp b e : string) (c pos : Z) (n : nat)
    (acc : list string) (w : World) (k : string) :
  (forall i, k <> chunk_path b i e) ->
  let w' := (split_loop fuel fp b e c pos n acc w).2 in
  files w' !! k = files w !! k /\ dirs w' = dirs w /\ locked w' = locked w
  /\ attempts w' = attempts w.
Proof.
  intros Hk. cbv zeta. revert pos n acc w; induction fuel as [|fuel IH];
    intros pos n acc w; [by repeat split|].
  cbn [split_loop]. unfold bind, read_at.
  destruct (files w !! fp) as [d|]; [|by repeat split].
  destruct (py_read d pos c) as [|x xs]; [by repeat split|].
  unfold write_file. case_bool_decide; [by repeat split|].
  match goal with |- context [split_loop fuel fp b e c ?p ?m ?a ?w1] =>
    destruct (IH p m a w1) as (H1 & H2 & H3 & H4) end.
  cbn zeta in *. rewrite H1, H2, H3, H4. cbn [files dirs locked attempts].
  split; [|done]. by rewrite lookup_insert_ne.
Qed.

(** [split_large_file] never touches the source file, the directories, the write-protected paths or the strategy log: it changes at most the files named like its parts. *)
Theorem split_large_file_frame (file_path : string) (chunk_size : Z) (w : World) :
  let w' := (split_large_file file_path chunk_size w).2 in
  dirs w' = dirs w /\ locked w' = locked w /\ attempts w' = attempts w
  /\ files w' !! file_path = files w !! file_path
  /\ (forall k, (forall i, k <> part_name file_path i) -> files w' !! k = files w !! k).
Proof.
  assert (Hgen : forall k, (forall i, k <> part_name file_path i) ->
    let w' := (split_large_file file_path chunk_size w).2 in
    files w' !! k = files w !! k /\ dirs w' = dirs w /\ locked w' = locked w
    /\ attempts w' = attempts w).
  { intros k Hk. unfold split_large_file, catch.
    assert (Hb : let w' := (split_body file_path chunk_size w).2 in
      files w' !! k = files w !! k /\ dirs w' = dirs w /\ locked w' = locked w
      /\ attempts w' = attempts w).
    { unfold split_body, bind, getsize.
      destruct (files w !! file_path) as [d|] eqn:Hd; [|by repeat split].
      destruct (Z.of_nat (length d) <=? MAX_FILE_SIZE); [by repeat split|].
      unfold part_name in Hk. destruct (splitext file_path) as [b e].
      unfold open_read. rewrite Hd. by apply split_loop_frame. }
    destruct (split_body file_path chunk_size w) as [[a|e] w1]; exact Hb. }
  intros w'. destruct (Hgen file_path) as (H1 & H2 & H3 & H4).
  { intros i Hi. by apply (part_name_not_source file_path i). }
  do 4 (split; [done|]). intros k Hk. by apply Hgen.
Qed.

(** Splitting an oversized file with chunk size 0 returns no part at all and writes nothing, since [read(0)] returns no bytes. *)
Theorem split_large_file_zero_chunk (w : World) (file_path : string) (d : bytes) :
  files w !! file_path = Some d -> MAX_FILE_SIZE < Z.of_nat (length d) ->
  split_large_file file_path 0 w = (Ok [], w).
Proof.
  intros Hd Hs. unfold split_large_file, catch, split_body, bind, getsize, open_read.
  rewrite Hd. destruct (Z.leb_spec (Z.of_nat (length d)) MAX_FILE_SIZE); [lia|].
  destruct (splitext file_path) as [b e]. rewrite Hd, Nat2Z.id.
  cbn [split_loop]. unfold bind, read_at. rewrite Hd. reflexivity.
Qed.

(** Splitting an oversized file with a negative chunk size writes the whole file into the single part [_part000] and returns that part, since [read(-1)] reads to the end. *)
Theorem split_large_file_negative_chunk (w : World) (file_path : string) (d : bytes)
    (chunk_size : Z) :
  files w !! file_path = Some d -> MAX_FILE_SIZE < Z.of_nat (length d) ->
  chunk_size < 0 -> part_name file_path 0 ∉ locked w ->
  split_large_file file_path chunk_size w
  = (Ok [part_name file_path 0],
     mkWorld (<[part_name file_path 0 := d]> (files w)) (dirs w) (locked w) (attempts w)).
Proof.
  intros Hd Hs Hc Hlk. pose proof (part_name_not_source file_path 0) as Hne.
  unfold part_name in *. unfold split_large_file, catch, split_body, bind, getsize, open_read.
  rewrite Hd. destruct (Z.leb_spec (Z.of_nat (length d)) MAX_FILE_SIZE); [lia|].
  destruct (splitext file_path) as [b e]. cbn [fst snd] in *. rewrite Hd, Nat2Z.id.
  cbn [split_loop]. unfold bind, read_at. rewrite Hd.
  assert (Hr : py_read d 0 chunk_size = d).
  { unfold py_read. rewrite (proj2 (Z.ltb_lt _ _) Hc). apply drop_0. }
  rewrite Hr. destruct d as [|x xs]; [unfold MAX_FILE_SIZE in Hs; simpl in Hs; lia|].
  unfold write_file. rewrite bool_decide_false by done.
  cbn [length split_loop]. unfold bind, read_at. cbn [files].
  rewrite lookup_insert_ne by done. rewrite Hd.
  unfold py_read. rewrite (proj2 (Z.ltb_lt _ _) Hc).
  rewrite drop_ge by (simpl; lia). reflexivity.
Qed.

Lemma prefix_app_iff (a b : string) : String.prefix a b = true <-> exists r, b = a +:+ r.
Proof.
  revert b; induction a as [|x a IH]; intros b.
  - split; [intros _; by exists b | intros _; apply prefix_empty].
  - destruct b as [|y b]; cbn [String.prefix].
    + split; [discriminate|]. intros [r Hr]. discriminate.
    + destruct (Ascii.ascii_dec x y) as [->|Hne].
      * rewrite IH. split; intros [r Hr]; exists r.
        -- by rewrite Hr.
        -- by injection Hr.
      * split; [discriminate|]. intros [r Hr]. injection Hr. congruence.
Qed.

Lemma under_trans (p d q : string) :
  under p d = true -> under d q = true -> under p q = true.
Proof.
  unfold under. rewrite !prefix_app_iff. intros [r1 ->] [r2 ->].
  exists (r1 +:+ "/" +:+ r2). rewrite !str_app_assoc. done.
Qed.

(** [cleanup_all] leaves every file outside the workspace as it was, and every directory outside it but the workspace itself. *)
Theorem cleanup_all_outside (temp_dir : string) (w : World) (q : string) :
  under temp_dir q = false ->
  let w' := (cleanup_all temp_dir w).2 in
  files w' !! q = files w !! q
  /\ (q <> temp_dir -> (q ∈ dirs w' <-> q ∈ dirs w))
  /\ locked w' = locked w /\ attempts w' = attempts w.
Proof.
  intros Hq w'. unfold w'. rewrite cleanup_all_eq. cbn [snd].
  destruct (path_exists temp_dir w); [|done].
  unfold rmtree. case_bool_decide; [|done].
  set (fs := filter _ (files w)). set (ds := filter _ (dirs w)).
  assert (Hw : (if bool_decide (temp_dir ∈ ds)
                then (Err (OSError temp_dir), mkWorld fs ds (locked w) (attempts w))
                else (Ok tt, mkWorld fs ds (locked w) (attempts w))).2
               = mkWorld fs ds (locked w) (attempts w))
    by (by destruct (bool_decide (temp_dir ∈ ds))).
  rewrite Hw. cbn [files dirs locked attempts]. split; [|split; [|done]].
  - unfold fs. destruct (files w !! q) eqn:E.
    + apply map_lookup_filter_Some_2; [done|]. cbn [fst]. rewrite Hq. intros [? _]; done.
    + apply map_lookup_filter_None_2. by left.
  - intros Hne. unfold ds. rewrite elem_of_filter. split; [tauto|].
    intros Hin. split; [|done]. rewrite Hq. intros [[?|?] _]; done.
Qed.

Lemma cleanup_all_clears (temp_dir : string) (w : World) :
  temp_dir ∉ locked w ->
  (forall q, under temp_dir q = true -> q ∉ locked w) ->
  (forall q, under temp_dir q = true -> path_exists q w = true -> temp_dir ∈ dirs w) ->
  let w' := (cleanup_all temp_dir w).2 in
  (temp_dir ∉ dirs w')
  /\ (forall q, under temp_dir q = true -> files w' !! q = None /\ q ∉ dirs w').
Proof.
  intros Htl Hlk Hwf w'. unfold w'. rewrite cleanup_all_eq. cbn [snd].
  assert (Hgone : temp_dir ∉ dirs w ->
    (temp_dir ∉ dirs w) /\ (forall q, under temp_dir q = true -> files w !! q = None /\ q ∉ dirs w)).
  { intros Ht. split; [done|]. intros q Hq.
    destruct (path_exists q w) eqn:Ep; [by pose proof (Hwf q Hq Ep)|].
    unfold path_exists in Ep. apply orb_false_iff in Ep as [E1 E2].
    apply bool_decide_eq_false in E1, E2. split; [|done].
    by apply eq_None_not_Some. }
  destruct (path_exists temp_dir w) eqn:Ep.
  2:{ apply Hgone. unfold path_exists in Ep. apply orb_false_iff in Ep as [E1 _].
      by apply bool_decide_eq_false in E1. }
  unfold rmtree. case_bool_decide as Ht; [|by apply Hgone].
  set (fs := filter _ (files w)). set (ds := filter _ (dirs w)).
  assert (Hw : (if bool_decide (temp_dir ∈ ds)
                then (Err (OSError temp_dir), mkWorld fs ds (locked w) (attempts w))
                else (Ok tt, mkWorld fs ds (locked w) (attempts w))).2
               = mkWorld fs ds (locked w) (attempts w))
    by (by destruct (bool_decide (temp_dir ∈ ds))).
  rewrite Hw. cbn [files dirs].
  assert (Hfs : forall q, under temp_dir q = true -> fs !! q = None).
  { intros q Hq. unfold fs. apply map_lookup_filter_None_2. right.
    intros x _. cbn [fst]. intros HP. apply HP. split; [done|]. by apply Hlk. }
  assert (Hhf : forall d, d = temp_dir \/ under temp_dir d = true -> has_file_under fs d = false).
  { intros d Hd. unfold has_file_under. apply not_true_iff_false.
    rewrite existsb_exists. intros ([k x] & Hin & Hu). cbn [fst] in Hu.
    apply list_elem_of_In, elem_of_map_to_list in Hin.
    assert (Hk : under temp_dir k = true)
      by (destruct Hd as [->|Hd]; [done | by apply (under_trans _ d)]).
    rewrite (Hfs k Hk) in Hin. discriminate. }
  assert (Hld : forall d, d = temp_dir \/ under temp_dir d = true ->
                has_locked_dir_under w d = false).
  { intros d Hd. destruct (has_locked_dir_under w d) eqn:E; [|done].
    apply has_locked_dir_under_elim in E as (l & _ & Hl & Hlx).
    assert (Hl' : l = temp_dir \/ under temp_dir l = true).
    { destruct Hd as [->|Hd]; destruct Hlx as [->|Hlx]; auto.
      right. by apply (under_trans _ d). }
    destruct Hl' as [->|Hl']; [done|]. by destruct (Hlk l Hl'). }
  assert (Hds : forall d, d = temp_dir \/ under temp_dir d = true -> d ∉ ds).
  { intros d Hd. unfold ds. rewrite elem_of_filter. intros [HP _]. apply HP.
    split; [done|]. split; [by apply Hhf|by apply Hld]. }
  split; [apply Hds; by left|]. intros q Hq. split; [by apply Hfs|]. apply Hds. by right.
Qed.


Lemma str_forallb_impl (f g : ascii -> bool) (s : string) :
  (forall c, f c = true -> g c = true) -> str_forallb f s = true -> str_forallb g s = true.
Proof.
  intros Hfg. induction s as [|c s IH]; [done|]. simpl.
  intros H. apply andb_prop in H as [H1 H2]. by rewrite Hfg, IH.
Qed.

Lemma str_take_app_plus (s1 s2 : string) (k : nat) :
  str_take (String.length s1 + k) (s1 +:+ s2) = s1 +:+ str_take k s2.
Proof. induction s1 as [|c s1 IH]; [done|]. rewrite !str_app_cons. simpl. by rewrite IH. Qed.

Lemma split_first_app (c : ascii) (p r : string) :
  str_forallb (fun a => negb (Ascii.eqb a c)) p = true ->
  (split_first c (p +:+ r)).1 = p +:+ (split_first c r).1.
Proof.
  intros Hp. unfold split_first. rewrite find_char_app_none by done.
  destruct (find_char c r); cbn [option_map fst]; [apply str_take_app_plus|done].
Qed.

Lemma split_first_head (c : ascii) (r : string) : (split_first c (String c r)).1 = "".
Proof. unfold split_first. cbn [find_char]. by rewrite Ascii.eqb_refl. Qed.

Lemma split_first_other (c a : ascii) (r : string) :
  Ascii.eqb a c = false -> exists r', (split_first c (String a r)).1 = String a r'.
Proof.
  intros Ha. unfold split_first. cbn [find_char]. rewrite Ha.
  destruct (find_char c r); cbn; eauto.
Qed.

Lemma str_drop_len (s1 s2 : string) : str_drop (String.length s1) (s1 +:+ s2) = s2.
Proof. pose proof (str_drop_app s1 s2 0) as H. rewrite Nat.add_0_r in H. exact H. Qed.

Lemma path_tail_rest_ok (p r : string) :
  path_ok p = true -> tail_ok r = true -> rest_ok (p +:+ r) = true.
Proof.
  unfold path_ok, tail_ok, rest_ok. intros Hp Hr.
  apply andb_prop in Hp as [Hp1 Hp2]. apply andb_prop in Hr as [Hr1 Hr2].
  rewrite str_forallb_app, Hr1, andb_true_r.
  rewrite (str_forallb_impl path_char_ok) by
    (done || (intros c Hc; unfold path_char_ok in Hc; by destruct (unsafe_url_byte c))).
  destruct p as [|c p]; cbn.
  - destruct r as [|c r]; [done|]. revert Hr2. cbn.
    rewrite str_app_empty. destruct (Ascii.eqb c "/"), (Ascii.eqb c "?"), (Ascii.eqb c "#"); done.
  - rewrite str_app_cons. cbn. by rewrite Hp2.
Qed.

Lemma urlsplit_shape (check : string -> bool) (scheme netloc path tail : string) :
  scheme_ok scheme = true -> netloc_ok netloc = true -> path_ok path = true ->
  tail_ok tail = true ->
  exists query fragment,
    urlsplit check (scheme +:+ "://" +:+ netloc +:+ path +:+ tail)
    = Ok (mkSplitResult (lower scheme) netloc path query fragment).
Proof.
  intros Hs Hn Hp Hr.
  pose proof (path_tail_rest_ok path tail Hp Hr) as Hrest.
  destruct scheme as [|c0 sc]; [discriminate|].
  unfold scheme_ok in Hs. apply andb_prop in Hs as [Ha Hsc].
  assert (Hcol : str_forallb (fun a => negb (Ascii.eqb a ":")) (String c0 sc) = true).
  { revert Hsc. apply str_forallb_impl. intros a.
    destruct a as [[] [] [] [] [] [] [] []]; vm_compute; done. }
  assert (Hc0 : c0_control_or_space c0 = false).
  { revert Ha. clear. destruct c0 as [[] [] [] [] [] [] [] []]; vm_compute; done. }
  unfold urlsplit. rewrite str_app_cons. cbn [lstrip_c0]. rewrite Hc0.
  rewrite <- str_app_cons.
  rewrite remove_unsafe_id.
  2:{ rewrite !str_forallb_app. apply andb_true_intro; split.
      - revert Hsc. apply str_forallb_impl. intros a.
        destruct a as [[] [] [] [] [] [] [] []]; vm_compute; done.
      - cbn. unfold rest_ok in Hrest. apply andb_prop in Hrest as [Hr1 _].
        rewrite <- str_forallb_app, Hr1, andb_true_r. revert Hn. apply str_forallb_impl.
        intros a Ha'. unfold netloc_char_ok in Ha'. by destruct (unsafe_url_byte a). }
  rewrite find_char_app_none by exact Hcol.
  change ("://" +:+ netloc +:+ path +:+ tail)
    with (String ":" ("//" +:+ netloc +:+ path +:+ tail)).
  cbn [find_char]. rewrite Ascii.eqb_refl. cbn [option_map]. rewrite Nat.add_0_r.
  replace (S (String.length (String c0 sc))) with (String.length (String c0 sc) + 1)%nat
    by lia.
  rewrite str_take_app, str_drop_app, str_app_cons.
  cbn iota. rewrite Ha, Hsc.
  replace (Nat.ltb 0 (String.length (String c0 sc))) with true by reflexivity.
  cbn [andb]. change ("//" +:+ netloc +:+ path +:+ tail)
    with (String "/" (String "/" (netloc +:+ path +:+ tail))).
  assert (Hpre : forall x, String.prefix "//" (String "/" (String "/" x)) = true)
    by (intros x; cbn; apply prefix_empty).
  cbn [str_drop]. rewrite Hpre. cbn [str_drop].
  rewrite take_netloc_app by done. rewrite str_drop_len.
  destruct (netloc_ok_no_bracket netloc Hn) as [-> ->]. cbn [andb orb negb].
  cbv iota.
  unfold path_ok in Hp. apply andb_prop in Hp as [Hp _].
  assert (Hph : str_forallb (fun a => negb (Ascii.eqb a "#")) path = true).
  { revert Hp. apply str_forallb_impl. intros a. unfold path_char_ok.
    by destruct (Ascii.eqb a "#"); rewrite ?orb_true_r. }
  assert (Hpq : str_forallb (fun a => negb (Ascii.eqb a "?")) path = true).
  { revert Hp. apply str_forallb_impl. intros a. unfold path_char_ok.
    by destruct (Ascii.eqb a "?"); rewrite ?orb_true_r. }
  pose proof (split_first_app "#" path tail Hph) as E1.
  destruct (split_first "#" (path +:+ tail)) as [u1 fragment]. cbn [fst] in E1. subst u1.
  assert (Hq : (split_first "?" (split_first "#" tail).1).1 = "").
  { unfold tail_ok in Hr. apply andb_prop in Hr as [_ Hr].
    destruct tail as [|c t]; [done|].
    destruct (Ascii.eqb_spec c "?") as [->|Hc].
    - destruct (split_first_other "#" "?" t) as [t' ->]; [done|].
      apply split_first_head.
    - destruct (Ascii.eqb_spec c "#") as [->|Hc']; [|discriminate].
      rewrite split_first_head. done. }
  pose proof (split_first_app "?" path (split_first "#" tail).1 Hpq) as E2.
  destruct (split_first "?" (path +:+ (split_first "#" tail).1)) as [u2 query].
  cbn [fst] in E2. subst u2. rewrite Hq, str_app_nil_r.
  by exists query, fragment.
Qed.

Lemma urlsplit_netloc_agree (check : string -> bool) (url : string) :
  urlsplit_netloc check url
  = match urlsplit check url with Ok r => Ok (sr_netloc r) | Err e => Err e end.
Proof.
  unfold urlsplit_netloc, urlsplit.
  set (u := remove_unsafe (lstrip_c0 url)).
  destruct (find_char ":" u) as [i|]; [destruct u as [|c0 u'] eqn:Eu|].
  all: try (destruct (Nat.ltb 0 i && is_ascii_alpha c0
                      && str_forallb scheme_char (str_take i (String c0 u')))).
  all: cbv iota beta.
  all: match goal with |- context [if String.prefix "//" ?x then _ else _] =>
         destruct (String.prefix "//" x) end.
  all: repeat match goal with |- context [if ?b then _ else _] => destruct b end.
  all: cbv iota beta.
  all: repeat match goal with |- context [split_first ?c ?x] => destruct (split_first c x) end.
  all: reflexivity.
Qed.



Lemma existsb_same_elems {A} (f : A -> bool) (l1 l2 : list A) :
  (forall x, In x l1 <-> In x l2) -> existsb f l1 = existsb f l2.
Proof.
  intros Hl. destruct (existsb f l1) eqn:E1, (existsb f l2) eqn:E2; try done.
  - apply existsb_exists in E1 as (x & Hx & Hf).
    assert (existsb f l2 = true) by (apply existsb_exists; exists x; by rewrite <- Hl).
    congruence.
  - apply existsb_exists in E2 as (x & Hx & Hf).
    assert (existsb f l1 = true) by (apply existsb_exists; exists x; by rewrite Hl).
    congruence.
Qed.

Lemma url_video_platforms_same (f : string -> bool) :
  existsb f url_video_platforms = existsb f video_platforms.
Proof.
  apply existsb_same_elems. intros x. unfold url_video_platforms, video_platforms.
  cbn [In]. tauto.
Qed.

(** [is_video_url] accepts every URL [is_video_platform] accepts and raises whenever it raises; otherwise it parses the lowercased URL and decides by the extension of its path. *)
Theorem is_video_url_platform (check : string -> bool) (url : string) :
  is_video_url check url
  = match is_video_platform check url with
    | Err e => Err e
    | Ok true => Ok true
    | Ok false =>
        match urlparse check (lower url) with
        | Ok parsed => Ok (existsb (endswith (lower (pr_path parsed))) video_extensions)
        | Err e => Err e
        end
    end.
Proof.
  unfold is_video_url, is_video_platform, urlparse.
  rewrite urlsplit_netloc_agree.
  destruct (urlsplit check (lower url)) as [r|e]; [|done].
  destruct (bool_decide (sr_scheme r ∈ uses_params) && contains ";" (sr_path r)).
  - destruct (splitparams (sr_path r)) as [path params]. cbn [pr_netloc pr_path].
    rewrite url_video_platforms_same. by destruct (existsb _ video_platforms).
  - cbn [pr_netloc pr_path].
    rewrite url_video_platforms_same. by destruct (existsb _ video_platforms).
Qed.

Lemma path_char_ok_lower (c : ascii) : path_char_ok (lower_char c) = path_char_ok c.
Proof. destruct c as [[] [] [] [] [] [] [] []]; vm_compute; reflexivity. Qed.

Lemma url_parts_lower (scheme netloc path tail : string) :
  scheme_ok scheme = true -> netloc_ok netloc = true -> path_ok path = true ->
  tail_ok tail = true ->
  scheme_ok (lower scheme) = true /\ netloc_ok (lower netloc) = true
  /\ path_ok (lower path) = true /\ tail_ok (lower tail) = true.
Proof.
  intros Hs Hn Hp Hr. split; [|split; [|split]].
  - destruct scheme as [|c s]; [discriminate|]. unfold scheme_ok in *.
    apply andb_prop in Hs as [Ha Hs].
    change (lower (String c s)) with (String (lower_char c) (lower s)).
    destruct (lower_char_props c) as (_ & _ & _ & _ & -> & _). rewrite Ha. cbn [andb].
    change (String (lower_char c) (lower s)) with (lower (String c s)).
    rewrite str_forallb_lower; [done|].
    intros a. by destruct (lower_char_props a) as (_ & _ & _ & -> & _).
  - unfold netloc_ok. rewrite str_forallb_lower; [done|].
    intros a. by destruct (lower_char_props a) as (_ & _ & _ & _ & _ & -> & _).
  - unfold path_ok in *. apply andb_prop in Hp as [Hp1 Hp2].
    rewrite str_forallb_lower by apply path_char_ok_lower. rewrite Hp1. cbn [andb].
    destruct path as [|c p]; [done|]. cbn.
    by destruct (lower_char_props c) as (_ & _ & _ & _ & _ & _ & _ & -> & _).
  - unfold tail_ok in *. apply andb_prop in Hr as [Hr1 Hr2].
    rewrite str_forallb_lower
      by (intros a; by destruct (lower_char_props a) as (_ & -> & _)).
    rewrite Hr1. cbn [andb].
    destruct tail as [|c r]; [done|]. cbn.
    by destruct (lower_char_props c) as (_ & _ & _ & _ & _ & _ & _ & _ & -> & ->).
Qed.

Lemma urlparse_shape (check : string -> bool) (scheme netloc path tail : string) :
  scheme_ok scheme = true -> netloc_ok netloc = true -> path_ok path = true ->
  tail_ok tail = true ->
  exists parsed,
    urlparse check (scheme +:+ "://" +:+ netloc +:+ path +:+ tail) = Ok parsed
    /\ pr_netloc parsed = netloc /\ pr_path parsed = path.
Proof.
  intros Hs Hn Hp Hr. unfold urlparse.
  destruct (urlsplit_shape check scheme netloc path tail Hs Hn Hp Hr) as (q & f & ->).
  cbn [sr_scheme sr_netloc sr_path sr_query sr_fragment].
  assert (Hsemi : contains ";" path = false).
  { rewrite contains_char. unfold path_ok in Hp. apply andb_prop in Hp as [Hp _].
    rewrite (str_forallb_impl path_char_ok); [done| |done].
    intros a. unfold path_char_ok. by destruct (Ascii.eqb a ";"); rewrite ?orb_true_r. }
  rewrite Hsemi, andb_false_r. by eexists.
Qed.

(** On a URL [scheme://netloc path tail] with a plain netloc and path, [is_video_url] holds exactly when the lowercased netloc contains a video platform host or the lowercased path ends in a video extension. *)
Theorem is_video_url_shape (check : string -> bool) (scheme netloc path tail : string) :
  scheme_ok scheme = true -> netloc_ok netloc = true -> path_ok path = true ->
  tail_ok tail = true ->
  is_video_url check (scheme +:+ "://" +:+ netloc +:+ path +:+ tail)
  = Ok (existsb (fun platform => contains platform (lower netloc)) video_platforms
        || existsb (fun ext => endswith (lower path) ext) video_extensions).
Proof.
  intros Hs Hn Hp Hr.
  destruct (url_parts_lower scheme netloc path tail Hs Hn Hp Hr) as (Hs' & Hn' & Hp' & Hr').
  unfold is_video_url. rewrite !lower_app. change (lower "://") with "://".
  destruct (urlparse_shape check _ _ _ _ Hs' Hn' Hp' Hr') as (parsed & -> & -> & ->).
  rewrite url_video_platforms_same, lower_idem.
  by destruct (existsb _ video_platforms).
Qed.

Lemma rfind_from_spec (c : ascii) (s : string) (i : nat) (acc : option nat) :
  (rfind_from c s i acc = acc /\ str_forallb (fun a => negb (Ascii.eqb a c)) s = true)
  \/ exists k, rfind_from c s i acc = Some (i + k)%nat
               /\ str_forallb (fun a => negb (Ascii.eqb a c)) (str_drop (S k) s) = true.
Proof.
  revert i acc; induction s as [|a s IH]; intros i acc; [by left|].
  cbn [rfind_from]. destruct (IH (S i) (if Ascii.eqb a c then Some i else acc))
    as [[-> Hs]|(k & -> & Hs)].
  - destruct (Ascii.eqb a c) eqn:E.
    + right. exists 0%nat. rewrite Nat.add_0_r. by split.
    + left. split; [done|]. cbn. by rewrite E, Hs.
  - right. exists (S k). split; [f_equal; lia | done].
Qed.

Lemma basename_no_slash (p : string) : contains "/" (basename p) = false.
Proof.
  rewrite contains_char. unfold basename, rfind.
  destruct (rfind_from_spec "/" p 0 None) as [[-> Hs]|(k & -> & Hs)]; cbn [Nat.add]; by rewrite Hs.
Qed.

Lemma string_of_uint_no_slash (u : Decimal.uint) :
  str_forallb (fun a => negb (Ascii.eqb a "/")) (NilEmpty.string_of_uint u) = true.
Proof. induction u; cbn; rewrite ?IHu; reflexivity. Qed.

Lemma str_int_no_slash (z : Z) : contains "/" (str_int z) = false.
Proof.
  rewrite contains_char. unfold str_int, NilEmpty.string_of_int.
  destruct (Z.to_int z) as [u|u]; cbn; by rewrite string_of_uint_no_slash.
Qed.

Lemma contains_app_false (x s1 s2 : string) :
  String.length x = 1%nat ->
  contains x (s1 +:+ s2) = false <-> contains x s1 = false /\ contains x s2 = false.
Proof.
  intros Hx. destruct x as [|c [|]]; try discriminate.
  rewrite !contains_char, str_forallb_app, !negb_false_iff, andb_true_iff. done.
Qed.

Lemma contains_app_r (x s1 s2 : string) :
  contains x s2 = true -> contains x (s1 +:+ s2) = true.
Proof.
  intros H. induction s1 as [|a s1 IH]; [done|]. rewrite str_app_cons.
  cbn [contains]. by rewrite IH, orb_true_r.
Qed.

Lemma extract_filename_props (check : string -> bool) (now : Z) (url filename : string) :
  extract_filename check now url = Ok filename ->
  filename <> "" /\ contains "." filename = true /\ contains "/" filename = false.
Proof.
  unfold extract_filename. destruct (urlparse check url) as [parsed|e]; [|discriminate].
  set (b := basename (pr_path parsed)).
  destruct (String.eqb b "" || negb (contains "." b)) eqn:E; intros [= <-].
  - split; [by destruct (str_int now)|]. split.
    + apply contains_app_r, contains_app_r. reflexivity.
    + apply contains_app_false; [done|]. split; [done|].
      apply contains_app_false; [done|]. split; [apply str_int_no_slash | done].
  - apply orb_false_iff in E as [E1 E2]. apply negb_false_iff in E2.
    split; [by apply String.eqb_neq|]. split; [done|]. apply basename_no_slash.
Qed.

Lemma endswith_app (s suffix : string) : endswith (s +:+ suffix) suffix = true.
Proof.
  unfold endswith. rewrite str_length_app.
  replace (String.length s + String.length suffix - String.length suffix)%nat
    with (String.length s) by lia.
  rewrite str_drop_len, String.eqb_refl, andb_true_r. apply Nat.leb_le. lia.
Qed.

(** The filename the handler derives from a URL is non-empty, holds no slash, and always ends, case aside, in a video extension. *)
Theorem handler_filename_video (check : string -> bool) (now : Z) (url filename : string) :
  handler_filename check now url = Ok filename ->
  filename <> "" /\ contains "/" filename = false
  /\ existsb (fun ext => endswith (lower filename) ext) video_extensions = true.
Proof.
  unfold handler_filename.
  destruct (extract_filename check now url) as [f|e] eqn:Ef; [|discriminate].
  destruct (extract_filename_props check now url f Ef) as (Hne & _ & Hsl).
  destruct (existsb (fun ext => endswith (lower f) ext) video_extensions) eqn:Ev;
    intros [= <-].
  - done.
  - split; [by destruct f|]. split.
    + apply contains_app_false; [done|]. by split.
    + rewrite lower_app. change (lower ".mp4") with ".mp4". cbn [existsb].
      apply orb_true_intro. left. apply endswith_app.
Qed.



Lemma contains_app_l (x s1 s2 : string) :
  contains x s1 = true -> contains x (s1 +:+ s2) = true.
Proof.
  induction s1 as [|a s1 IH]; intros H.
  - destruct x; [apply contains_of_prefix, prefix_empty | discriminate].
  - rewrite str_app_cons. cbn [contains] in *. apply orb_true_iff in H as [H|H].
    + apply prefix_app_iff in H as [r Hr]. rewrite <- str_app_cons, Hr, <- str_app_assoc.
      apply orb_true_intro. left. apply prefix_app_iff. by eexists.
    + by rewrite IH, orb_true_r.
Qed.

Lemma lstrip_c0_suffix (s : string) : exists a, s = a +:+ lstrip_c0 s.
Proof.
  induction s as [|c s [a IH]]; [by exists ""|]. cbn [lstrip_c0].
  destruct (c0_control_or_space c).
  - exists (String c a). by rewrite str_app_cons, <- IH.
  - by exists "".
Qed.

Lemma take_netloc_prefix (s : string) : exists r, s = take_netloc s +:+ r.
Proof.
  induction s as [|c s [r IH]]; [by exists ""|]. cbn [take_netloc].
  destruct (Ascii.eqb c "/" || Ascii.eqb c "?" || Ascii.eqb c "#").
  - by exists (String c s).
  - exists r. by rewrite str_app_cons, <- IH.
Qed.

Lemma str_drop_suffix (n : nat) (s : string) : exists a, s = a +:+ str_drop n s.
Proof. exists (str_take n s). by rewrite str_take_drop. Qed.

(** With no tab or newline to remove, the netloc is a piece of the URL. *)
Lemma urlsplit_netloc_infix (check : string -> bool) (s netloc : string) :
  str_forallb (fun c => negb (unsafe_url_byte c)) s = true ->
  urlsplit_netloc check s = Ok netloc -> exists a b, s = a +:+ netloc +:+ b.
Proof.
  intros Hs. unfold urlsplit_netloc.
  destruct (lstrip_c0_suffix s) as [a0 Ha0].
  rewrite (remove_unsafe_id (lstrip_c0 s)).
  2:{ rewrite Ha0, str_forallb_app in Hs. by apply andb_prop in Hs as [_ Hs]. }
  set (u := lstrip_c0 s) in *.
  assert (Hu : exists a1 u', u = a1 +:+ u'
    /\ (match find_char ":" u with
        | Some i => match u with
                    | String c0 _ => if Nat.ltb 0 i && is_ascii_alpha c0
                                        && str_forallb scheme_char (str_take i u)
                                     then str_drop (S i) u else u
                    | EmptyString => u
                    end
        | None => u
        end) = u').
  { destruct (find_char ":" u) as [i|]; [destruct u as [|c0 u1]|].
    - by exists "", "".
    - destruct (Nat.ltb 0 i && is_ascii_alpha c0 && str_forallb scheme_char (str_take i (String c0 u1))).
      + destruct (str_drop_suffix (S i) (String c0 u1)) as [a1 Ha1].
        eexists a1, _. split; [exact Ha1 | reflexivity].
      + eexists "", _. split; [by rewrite str_app_empty | reflexivity].
    - eexists "", _. split; [by rewrite str_app_empty | reflexivity]. }
  destruct Hu as (a1 & u' & Hau & ->).
  destruct (String.prefix "//" u') eqn:Hp.
  2:{ intros [= <-]. exists s, "". by rewrite str_app_empty, str_app_nil_r. }
  destruct (str_drop_suffix 2 u') as [a2 Ha2].
  destruct (take_netloc_prefix (str_drop 2 u')) as [r Hr].
  destruct (_ || _); [discriminate|]. destruct (_ && _ && _); [discriminate|].
  intros [= <-]. exists (a0 +:+ a1 +:+ a2), r.
  rewrite Ha0, Hau, Ha2, Hr at 1. rewrite !str_app_assoc. reflexivity.
Qed.

(** A URL with no tab, CR or LF that [get_platform_type] tags [instagram] is a video platform URL whose lowercased text contains [instagram.com], the condition under which the fallback tries Instaloader.  The precondition is needed: [urlsplit] drops those characters first, so [https://insta<TAB>gram.com/x] is tagged [instagram] while its text lacks [instagram.com]. *)
Theorem get_platform_type_instagram (check : string -> bool) (url : string) :
  str_forallb (fun c => negb (unsafe_url_byte c)) url = true ->
  get_platform_type check url = Ok "instagram" ->
  is_video_platform check url = Ok true /\ contains "instagram.com" (lower url) = true.
Proof.
  intros Hs. unfold get_platform_type, is_video_platform.
  destruct (urlsplit_netloc check (lower url)) as [n|e] eqn:Hn; [|discriminate].
  intros Ht.
  assert (Hig : contains "instagram.com" n = true).
  { revert Ht. destruct (contains "youtube.com" n || contains "youtu.be" n); [discriminate|].
    destruct (contains "instagram.com" n); [done|].
    repeat match goal with |- context [if contains ?d n then _ else _] =>
      destruct (contains d n) end; discriminate. }
  split.
  - cbn [existsb video_platforms]. rewrite Hig. by rewrite !orb_true_r.
  - assert (Hls : str_forallb (fun c => negb (unsafe_url_byte c)) (lower url) = true).
    { rewrite str_forallb_lower; [done|].
      intros c. by destruct (lower_char_props c) as (_ & -> & _). }
    destruct (urlsplit_netloc_infix check (lower url) n Hls Hn) as (a & b & ->).
    by apply contains_app_r, contains_app_l.
Qed.


(** ** Steps that keep every directory *)


Create HintDb grows.

Lemma grows_ret {A} (a : A) : grows (ret a).
Proof. intros w. done. Qed.
Lemma grows_raise {A} (e : exn) : grows (@raise A e).
Proof. intros w. done. Qed.
Lemma grows_lift {A} (r : res A) : grows (lift r).
Proof. destruct r; intros w; done. Qed.
Lemma grows_bind {A B} (m : M A) (k : A -> M B) :
  grows m -> (forall a, grows (k a)) -> grows (bind m k).
Proof.
  intros Hm Hk w. unfold bind. destruct (Hm w) as [H1 H2].
  destruct (m w) as [[a|e] w1]; cbn [snd] in *; [|done].
  destruct (Hk a w1) as [H3 H4]. split; [set_solver | congruence].
Qed.
Lemma grows_catch {A} (m : M A) (h : exn -> M A) :
  grows m -> (forall e, grows (h e)) -> grows (catch m h).
Proof.
  intros Hm Hh w. unfold catch. destruct (Hm w) as [H1 H2].
  destruct (m w) as [[a|e] w1]; cbn [snd] in *; [done|].
  destruct (Hh e w1) as [H3 H4]. split; [set_solver | congruence].
Qed.
Lemma grows_exists (p : string) : grows (exists_ p).
Proof. intros w. done. Qed.
Lemma grows_getsize (p : string) : grows (getsize p).
Proof. intros w. unfold getsize. by destruct (files w !! p). Qed.
Lemma grows_open_read (p : string) : grows (open_read p).
Proof. intros w. unfold open_read. by destruct (files w !! p). Qed.
Lemma grows_read_at (p : string) (pos n : Z) : grows (read_at p pos n).
Proof. intros w. unfold read_at. by destruct (files w !! p). Qed.
Lemma grows_write_file (p : string) (d : bytes) : grows (write_file p d).
Proof. intros w. unfold write_file. by case_bool_decide. Qed.
Lemma grows_makedirs (p : string) : grows (makedirs p).
Proof.
  intros w. unfold makedirs. case_bool_decide; [done|].
  case_match; [done|]. cbn. split; [set_solver | done].
Qed.
Lemma grows_tool_writes (dir : string) (out : list (string * bytes)) :
  grows (tool_writes dir out).
Proof. intros w. done. Qed.
Lemma grows_listdir (dir : string) : grows (listdir dir).
Proof. intros w. unfold listdir. by case_bool_decide. Qed.
Lemma grows_record_attempt (s : strategy) (r : option string) : grows (record_attempt s r).
Proof. intros w. done. Qed.
Lemma grows_remove_file (p : string) : grows (remove_file p).
Proof.
  intros w. unfold remove_file. destruct (files w !! p); [|done]. by case_bool_decide.
Qed.

#[local] Hint Resolve grows_ret grows_raise grows_lift grows_exists grows_getsize
  grows_open_read grows_read_at grows_write_file grows_makedirs grows_tool_writes
  grows_listdir grows_record_attempt grows_remove_file : grows.

Ltac grows_tac :=
  repeat match goal with
         | |- grows (bind _ _) => apply grows_bind; [|intros ?]
         | |- grows (catch _ _) => apply grows_catch; [|intros ?]
         | |- grows (if ?b then _ else _) => destruct b
         | |- grows _ => solve [eauto with grows]
         | |- grows _ => case_match
         end.

Lemma grows_attempt (s : strategy) (body : M (option string)) :
  grows body -> grows (attempt s body).
Proof. intros Hb. unfold attempt. grows_tac. Qed.
#[local] Hint Resolve grows_attempt : grows.

Lemma grows_download_with_tool (o : Oracle) (s : strategy) (exts : list string)
    (url dir : string) : grows (download_with_tool o s exts url dir).
Proof. unfold download_with_tool. apply grows_attempt. grows_tac. Qed.

Lemma grows_download_http (o : Oracle) (s : strategy) (url out : string) :
  grows (download_http o s url out).
Proof. unfold download_http. apply grows_attempt. grows_tac. Qed.
#[local] Hint Resolve grows_download_with_tool grows_download_http : grows.

Lemma grows_fallback (o : Oracle) (url dir : string) :
  grows (download_with_yt_dlp_fallback o url dir).
Proof.
  unfold download_with_yt_dlp_fallback, download_with_ytdlp, download_with_youtubedl,
    download_with_instaloader.
  grows_tac.
Qed.
#[local] Hint Resolve grows_fallback : grows.

Lemma grows_download_video (check : string -> bool) (o : Oracle) (dd url fn : string) :
  grows (download_video check o dd url fn).
Proof.
  unfold download_video, download_video_body, download_direct_with_enhanced_headers,
    download_direct.
  grows_tac.
Qed.

Lemma grows_split_loop (fuel : nat) (fp b e : string) (c pos : Z) (n : nat)
    (acc : list string) : grows (split_loop fuel fp b e c pos n acc).
Proof.
  revert pos n acc; induction fuel as [|fuel IH]; intros pos n acc; cbn [split_loop];
    grows_tac.
Qed.
#[local] Hint Resolve grows_split_loop : grows.

Lemma grows_split_large_file (fp : string) (c : Z) : grows (split_large_file fp c).
Proof. unfold split_large_file, split_body. grows_tac. Qed.



Lemma cleanup_all_locked (temp_dir : string) (w : World) :
  locked (cleanup_all temp_dir w).2 = locked w.
Proof.
  rewrite cleanup_all_eq. cbn [snd]. destruct (path_exists temp_dir w); [|done].
  unfold rmtree. case_bool_decide; [|done]. by case_match.
Qed.

(** ** The handler's workspace *)

Section Workspace.
Variable check : string -> bool.
Variable tg_fails : message -> bool.
Variable temp_dir : string.




Lemma hgrows_ret {A} (a : A) : hgrows (hret a).
Proof. intros s. done. Qed.
Lemma hgrows_raise {A} (e : exn) : hgrows (@hraise A e).
Proof. intros s. done. Qed.
Lemma hgrows_lift {A} (m : M A) : grows m -> hgrows (hlift m).
Proof.
  intros Hm s. unfold hlift. destruct (Hm s.1) as [H1 H2].
  by destruct (m s.1) as [r w].
Qed.
Lemma hgrows_send (msg : message) : hgrows (send tg_fails msg).
Proof. intros s. done. Qed.
Lemma hgrows_bind {A B} (m : HM A) (k : A -> HM B) :
  hgrows m -> (forall a, hgrows (k a)) -> hgrows (hbind m k).
Proof.
  intros Hm Hk s. unfold hbind. destruct (Hm s) as [H1 H2].
  destruct (m s) as [[a|e] s1]; cbn [snd fst] in *; [|done].
  destruct (Hk a s1) as [H3 H4]. split; [set_solver | congruence].
Qed.
Lemma hgrows_catch {A} (m : HM A) (h : exn -> HM A) :
  hgrows m -> (forall e, hgrows (h e)) -> hgrows (hcatch m h).
Proof.
  intros Hm Hh s. unfold hcatch. destruct (Hm s) as [H1 H2].
  destruct (m s) as [[a|e] s1]; cbn [snd fst] in *; [done|].
  destruct (Hh e s1) as [H3 H4]. split; [set_solver | congruence].
Qed.

#[local] Hint Resolve hgrows_ret hgrows_raise hgrows_send : grows.
#[local] Hint Extern 1 (hgrows (hlift _)) => apply hgrows_lift : grows.
#[local] Hint Resolve grows_download_video grows_split_large_file : grows.

Ltac hgrows_tac :=
  repeat match goal with
         | |- hgrows (hbind _ _) => apply hgrows_bind; [|intros ?]
         | |- hgrows (hcatch _ _) => apply hgrows_catch; [|intros ?]
         | |- hgrows (if ?b then _ else _) => destruct b
         | |- hgrows _ => solve [eauto with grows]
         | |- grows _ => solve [grows_tac]
         end.

Lemma hgrows_send_parts (filename : string) (chunks : list string) (i n : nat) :
  hgrows (send_parts tg_fails filename chunks i n).
Proof.
  revert i; induction chunks as [|c chunks IH]; intros i; cbn [send_parts]; hgrows_tac.
Qed.
#[local] Hint Resolve hgrows_send_parts : grows.

Lemma ends_tidy_grows {A} (m : HM A) : hgrows m -> ends_tidy temp_dir m.
Proof.
  intros Hm s Ht Htl Hl. destruct (Hm s) as [H1 H2]. split; [done|]. left. set_solver.
Qed.

Lemma ends_tidy_bind {A B} (m : HM A) (k : A -> HM B) :
  hgrows m -> (forall a, ends_tidy temp_dir (k a)) -> ends_tidy temp_dir (hbind m k).
Proof.
  intros Hm Hk s Ht Htl Hl. unfold hbind. destruct (Hm s) as [H1 H2].
  destruct (m s) as [[a|e] s1]; cbn [snd fst] in *.
  - destruct (Hk a s1) as [H3 H4]; [set_solver | by rewrite H2 | by rewrite H2 | ].
    split; [congruence|done].
  - split; [done|]. left. set_solver.
Qed.

Lemma ends_tidy_if {A} (b : bool) (m1 m2 : HM A) :
  ends_tidy temp_dir m1 -> ends_tidy temp_dir m2 -> ends_tidy temp_dir (if b then m1 else m2).
Proof. by destruct b. Qed.

Lemma ends_tidy_catch_ret {A} (m : HM A) (a : A) :
  ends_tidy temp_dir m -> ends_tidy temp_dir (hcatch m (fun _ => hret a)).
Proof.
  intros Hm s Ht Htl Hl. unfold hcatch. destruct (Hm s Ht Htl Hl) as [H1 H2].
  by destruct (m s) as [[x|e] s1].
Qed.

Lemma ends_tidy_catch_send (m : HM unit) (h : exn -> message) :
  ends_tidy temp_dir m -> ends_tidy temp_dir (hcatch m (fun e => send tg_fails (h e))).
Proof.
  intros Hm s Ht Htl Hl. unfold hcatch. destruct (Hm s Ht Htl Hl) as [H1 H2].
  destruct (m s) as [[x|e] s1]; [done|]. unfold send. by case_match.
Qed.

Lemma ends_tidy_cleanup : ends_tidy temp_dir (hlift (cleanup_all temp_dir)).
Proof.
  intros [w log] Ht Htl Hl. cbn [fst] in *. unfold hlift. cbn [fst snd].
  destruct (cleanup_all temp_dir w) as [r w'] eqn:E. cbn [fst snd].
  pose proof (cleanup_all_locked temp_dir w) as Hlk. rewrite E in Hlk.
  split; [done|]. right.
  destruct (cleanup_all_clears temp_dir w Htl Hl (fun _ _ _ => Ht)) as [_ H].
  rewrite E in H. exact H.
Qed.

Lemma ends_tidy_body (o : Oracle) (url : string) :
  ends_tidy temp_dir (handler_body check tg_fails o temp_dir url).
Proof.
  unfold handler_body.
  repeat match goal with
         | |- ends_tidy temp_dir (hbind _ _) => apply ends_tidy_bind; [hgrows_tac|intros ?]
         | |- ends_tidy temp_dir (if _ then _ else _) => apply ends_tidy_if
         | |- ends_tidy temp_dir (hcatch _ (fun _ => hret _)) => apply ends_tidy_catch_ret
         | |- ends_tidy temp_dir (hlift (cleanup_all _)) => apply ends_tidy_cleanup
         | |- ends_tidy temp_dir _ => apply ends_tidy_grows; hgrows_tac
         end.
Qed.

End Workspace.

(** ** Properties of the handler *)

(** A message that, once stripped, starts with neither [http://] nor [https://] only gets the invalid-URL reply: no workspace is created and no file is touched. *)
Theorem handler_rejects_non_http (check : string -> bool) (tg_fails : message -> bool)
    (o : Oracle) (temp_dir text : string) (s : HState) :
  String.prefix "http://" (py_strip text) = false ->
  String.prefix "https://" (py_strip text) = false ->
  handler check tg_fails o temp_dir text s
  = (if tg_fails InvalidUrl then Err (Exception "TelegramError") else Ok tt,
     (s.1, s.2 ++ [InvalidUrl])).
Proof. intros H1 H2. unfold handler. rewrite H1, H2. reflexivity. Qed.

Lemma handler_setup (check : string -> bool) (tg_fails : message -> bool)
    (o : Oracle) (temp_dir text : string) (w : World) (log : list message) :
  (String.prefix "http://" (py_strip text) || String.prefix "https://" (py_strip text)) = true ->
  path_exists temp_dir w = false -> temp_dir ∉ locked w ->
  path_join temp_dir "downloads" ∉ locked w -> files w !! path_join temp_dir "downloads" = None ->
  let w1 := mkWorld (files w) ({[path_join temp_dir "downloads"]} ∪ ({[temp_dir]} ∪ dirs w))
              (locked w) (attempts w) in
  handler check tg_fails o temp_dir text (w, log)
  = if tg_fails Analyzing then (Err (Exception "TelegramError"), (w1, log ++ [Analyzing]))
    else hfinally
           (hcatch (handler_body check tg_fails o temp_dir (py_strip text))
              (fun e => send tg_fails (DownloadFailed (exn_msg e))))
           (hcatch (hlift (cleanup_all temp_dir)) (fun _ => hret tt))
           (w1, log ++ [Analyzing]).
Proof.
  intros Hu Hf Htl Hdl Hdf w1. unfold handler. rewrite Hu. cbn [negb].
  assert (Hm : (mkdtemp temp_dir ;; makedirs (path_join temp_dir "downloads")) w = (Ok tt, w1)).
  { unfold bind, mkdtemp. rewrite Hf, (bool_decide_eq_false_2 _ Htl). cbn [orb].
    unfold makedirs. cbn [files dirs locked attempts].
    case_bool_decide as Hd.
    - unfold w1. do 2 f_equal. set_solver.
    - rewrite (bool_decide_eq_false_2 _ Hdl), Hdf. reflexivity. }
  unfold hbind at 1. unfold hlift at 1. cbn [fst snd]. rewrite Hm.
  unfold hbind, send. cbn [fst snd]. by destruct (tg_fails Analyzing).
Qed.

(** A workspace name the process cannot create makes [mkdtemp] raise before anything else. *)
Lemma handler_setup_fails (check : string -> bool) (tg_fails : message -> bool)
    (o : Oracle) (temp_dir text : string) (w : World) (log : list message) :
  (String.prefix "http://" (py_strip text) || String.prefix "https://" (py_strip text)) = true ->
  temp_dir ∈ locked w ->
  handler check tg_fails o temp_dir text (w, log) = (Err (OSError temp_dir), (w, log)).
Proof.
  intros Hu Htl. unfold handler. rewrite Hu. cbn [negb].
  unfold hbind at 1. unfold hlift at 1. cbn [fst snd].
  unfold bind at 1, mkdtemp. rewrite (bool_decide_eq_true_2 _ Htl), orb_true_r. reflexivity.
Qed.

Lemma path_exists_false (p : string) (w : World) :
  path_exists p w = false -> files w !! p = None /\ p ∉ dirs w.
Proof.
  unfold path_exists. intros E. apply orb_false_iff in E as [E1 E2].
  apply bool_decide_eq_false in E1, E2. split; [by apply eq_None_not_Some|done].
Qed.

Lemma under_path_join (dir name : string) :
  dir <> "" -> endswith dir "/" = false -> String.prefix "/" name = false ->
  under dir (path_join dir name) = true.
Proof.
  intros Hn He Hp. unfold path_join. rewrite Hp, He.
  apply String.eqb_neq in Hn. rewrite Hn. cbn [orb].
  unfold under. apply prefix_app_iff. exists name. by rewrite str_app_assoc.
Qed.

(** After a well-formed URL whose first reply is sent, the handler removes its whole workspace, whatever happens in between, unless a path in it is write-protected; the workspace is a fresh name (an absolute path with no trailing slash, as [mkdtemp] returns) under which nothing exists yet, and when the name itself cannot be created nothing is made. *)
Theorem handler_removes_temp_dir (check : string -> bool) (tg_fails : message -> bool)
    (o : Oracle) (temp_dir text : string) (w : World) (log : list message) :
  (String.prefix "http://" (py_strip text) || String.prefix "https://" (py_strip text)) = true ->
  tg_fails Analyzing = false ->
  (forall q, under temp_dir q = true -> q ∉ locked w) ->
  temp_dir <> "" -> endswith temp_dir "/" = false ->
  (forall q, q = temp_dir \/ under temp_dir q = true -> path_exists q w = false) ->
  let w' := (handler check tg_fails o temp_dir text (w, log)).2.1 in
  (temp_dir ∉ dirs w')
  /\ (forall q, under temp_dir q = true -> files w' !! q = None /\ q ∉ dirs w')
  /\ locked w' = locked w.
Proof.
  intros Hu Ha Hl Hn He Hfr w'. unfold w'.
  destruct (decide (temp_dir ∈ locked w)) as [Htl|Htl].
  { rewrite (handler_setup_fails check tg_fails o temp_dir text w log Hu Htl). cbn [fst snd].
    split; [exact (proj2 (path_exists_false _ _ (Hfr temp_dir (or_introl eq_refl))))|].
    split; [|done]. intros q Hq. exact (path_exists_false _ _ (Hfr q (or_intror Hq))). }
  assert (Hdu : under temp_dir (path_join temp_dir "downloads") = true)
    by (apply under_path_join; [done|done|reflexivity]).
  rewrite (handler_setup check tg_fails o temp_dir text w log Hu (Hfr temp_dir (or_introl eq_refl))
             Htl (Hl _ Hdu) (proj1 (path_exists_false _ _ (Hfr _ (or_intror Hdu))))), Ha.
  set (w1 := mkWorld _ _ _ _).
  set (body := hcatch _ _).
  assert (Ht1 : temp_dir ∈ dirs w1) by (cbn [dirs w1]; set_solver).
  destruct (ends_tidy_catch_send tg_fails temp_dir _ (fun e => DownloadFailed (exn_msg e))
              (ends_tidy_body check tg_fails temp_dir o (py_strip text)) (w1, log ++ [Analyzing])
              Ht1 Htl Hl)
    as [Hlk Htd].
  fold body in Hlk, Htd.
  unfold hfinally. destruct (body (w1, log ++ [Analyzing])) as [r [w2 log2]]. cbn [fst snd] in *.
  unfold hcatch, hlift. cbn [fst snd]. rewrite cleanup_all_eq. cbn [fst snd].
  pose proof (cleanup_all_locked temp_dir w2) as Hlk2. rewrite cleanup_all_eq in Hlk2. cbn [snd] in Hlk2.
  cbn [w1 locked] in Hlk. rewrite <- Hlk in Hl, Htl.
  destruct (cleanup_all_clears temp_dir w2 Htl Hl) as [C1 C2].
  { intros q Hq Hp. destruct Htd as [Htd|Htd]; [done|].
    destruct (Htd q Hq) as [F D]. unfold path_exists in Hp.
    apply orb_true_iff in Hp as [Hp|Hp]; apply bool_decide_eq_true in Hp.
    - done.
    - rewrite F in Hp. by destruct Hp. }
  rewrite cleanup_all_eq in C1, C2. cbn [snd] in C1, C2.
  split; [done|]. split; [done|]. congruence.
Qed.

(** When sending the first reply fails, the handler raises and leaves its freshly created workspace and downloads directory behind: that reply is sent before the [try] whose [finally] cleans up.  The workspace name is fresh and both directories can be created. *)
Theorem handler_analyzing_failure_keeps_temp_dir (check : string -> bool)
    (tg_fails : message -> bool) (o : Oracle) (temp_dir text : string) (w : World)
    (log : list message) :
  (String.prefix "http://" (py_strip text) || String.prefix "https://" (py_strip text)) = true ->
  path_exists temp_dir w = false -> temp_dir ∉ locked w ->
  path_join temp_dir "downloads" ∉ locked w -> files w !! path_join temp_dir "downloads" = None ->
  tg_fails Analyzing = true ->
  let r := handler check tg_fails o temp_dir text (w, log) in
  r.1 = Err (Exception "TelegramError") /\ temp_dir ∈ dirs r.2.1
  /\ path_join temp_dir "downloads" ∈ dirs r.2.1 /\ r.2.2 = log ++ [Analyzing].
Proof.
  intros Hu Hf Htl Hdl Hdf Ha r. unfold r.
  rewrite (handler_setup check tg_fails o temp_dir text w log Hu Hf Htl Hdl Hdf), Ha.
  cbn [fst snd dirs]. repeat split; set_solver.
Qed.

Section Replies.
Variable check : string -> bool.
Variable tg_fails : message -> bool.



Lemma keeps_log_ret {A} (a : A) : keeps_log (hret a).
Proof. done. Qed.
Lemma keeps_log_lift {A} (m : M A) : keeps_log (hlift m).
Proof. intros s. unfold hlift. by destruct (m s.1). Qed.
Lemma keeps_log_bind {A B} (m : HM A) (k : A -> HM B) :
  keeps_log m -> (forall a, keeps_log (k a)) -> keeps_log (hbind m k).
Proof.
  intros Hm Hk s. unfold hbind. specialize (Hm s).
  destruct (m s) as [[a|e] s1]; cbn [snd] in *; [by rewrite Hk|done].
Qed.
Lemma keeps_log_catch {A} (m : HM A) (h : exn -> HM A) :
  keeps_log m -> (forall e, keeps_log (h e)) -> keeps_log (hcatch m h).
Proof.
  intros Hm Hh s. unfold hcatch. specialize (Hm s).
  destruct (m s) as [[a|e] s1]; cbn [snd] in *; [done|by rewrite Hh].
Qed.

Lemma ends_completed_bind {A B} (m : HM A) (k : A -> HM B) :
  (forall a, ends_completed (k a)) -> ends_completed (hbind m k).
Proof.
  intros Hk s b s' E. unfold hbind in E.
  destruct (m s) as [[a|e] s1]; [by eapply Hk|discriminate].
Qed.
Lemma ends_completed_if {A} (b : bool) (m1 m2 : HM A) :
  ends_completed m1 -> ends_completed m2 -> ends_completed (if b then m1 else m2).
Proof. by destruct b. Qed.
Lemma ends_completed_raise {A} (e : exn) : ends_completed (@hraise A e).
Proof. intros s a s' E. discriminate. Qed.
Lemma ends_completed_send {A} (f : string) (k : HM A) :
  keeps_log k -> ends_completed (send tg_fails (Completed f) ;;; k).
Proof.
  intros Hk s a s' E. unfold hbind, send in E. destruct (tg_fails (Completed f)); [discriminate|].
  exists f. specialize (Hk (s.1, s.2 ++ [Completed f])). rewrite E in Hk. cbn [snd] in Hk.
  rewrite Hk. apply last_snoc.
Qed.

Lemma ends_completed_body (o : Oracle) (temp_dir url : string) :
  ends_completed (handler_body check tg_fails o temp_dir url).
Proof.
  unfold handler_body.
  repeat match goal with
         | |- ends_completed (hbind (send _ (Completed _)) _) =>
             apply ends_completed_send;
             repeat match goal with
                    | |- keeps_log (hbind _ _) => apply keeps_log_bind; [|intros ?]
                    | |- keeps_log (hcatch _ _) => apply keeps_log_catch; [|intros ?]
                    | |- keeps_log (if ?b then _ else _) => destruct b
                    | |- keeps_log (hlift _) => apply keeps_log_lift
                    | |- keeps_log (hret _) => apply keeps_log_ret
                    end
         | |- ends_completed (hbind _ _) => apply ends_completed_bind; intros ?
         | |- ends_completed (if _ then _ else _) => apply ends_completed_if
         | |- ends_completed (hraise _) => apply ends_completed_raise
         end.
Qed.

End Replies.

(** When every Telegram call succeeds and the fresh workspace and its downloads directory can be created, the handler on a well-formed URL returns normally and its last message reports either the completed download or the failure. *)
Theorem handler_always_replies (check : string -> bool) (tg_fails : message -> bool)
    (o : Oracle) (temp_dir text : string) (w : World) (log : list message) :
  (forall msg, tg_fails msg = false) ->
  (String.prefix "http://" (py_strip text) || String.prefix "https://" (py_strip text)) = true ->
  path_exists temp_dir w = false -> temp_dir ∉ locked w ->
  path_join temp_dir "downloads" ∉ locked w -> files w !! path_join temp_dir "downloads" = None ->
  let r := handler check tg_fails o temp_dir text (w, log) in
  r.1 = Ok tt
  /\ ((exists filename, last r.2.2 = Some (Completed filename))
      \/ (exists error, last r.2.2 = Some (DownloadFailed error))).
Proof.
  intros Htg Hu Hf Htl Hdl Hdf r. unfold r.
  rewrite (handler_setup check tg_fails o temp_dir text w log Hu Hf Htl Hdl Hdf), Htg.
  set (w1 := mkWorld _ _ _ _). set (s1 := (w1, log ++ [Analyzing])).
  assert (Hb : let hc := hcatch (handler_body check tg_fails o temp_dir (py_strip text))
                         (fun e => send tg_fails (DownloadFailed (exn_msg e))) s1 in
               hc.1 = Ok tt /\ ((exists f, last hc.2.2 = Some (Completed f))
                                \/ (exists e, last hc.2.2 = Some (DownloadFailed e)))).
  { intros hc. unfold hc, hcatch.
    destruct (handler_body check tg_fails o temp_dir (py_strip text) s1) as [[[]|e] s2] eqn:Eb.
    - split; [done|]. left.
      by apply (ends_completed_body check tg_fails o temp_dir (py_strip text) s1 tt).
    - unfold send. rewrite Htg. split; [done|]. right.
      exists (exn_msg e). apply last_snoc. }
  cbv zeta in Hb. unfold hfinally.
  destruct (hcatch _ _ s1) as [a [w2 l2]]. cbn [fst snd] in Hb. destruct Hb as [-> Hl].
  unfold hcatch, hlift. cbn [fst snd]. rewrite cleanup_all_eq. cbn [fst snd]. done.
Qed.

(** [cleanup_all] on a workspace none of whose paths, the workspace directory
    included, is write-protected, and whose paths all lie in the workspace
    directory if any exists, removes the directory and every file and
    directory under it. *)
Theorem cleanup_all_removes_tree (temp_dir : string) (w : World) :
  temp_dir ∉ locked w ->
  (forall q, under temp_dir q = true -> q ∉ locked w) ->
  (forall q, under temp_dir q = true -> path_exists q w = true -> temp_dir ∈ dirs w) ->
  let w' := (cleanup_all temp_dir w).2 in
  (temp_dir ∉ dirs w')
  /\ (forall q, under temp_dir q = true -> files w' !! q = None /\ q ∉ dirs w').
Proof. apply cleanup_all_clears. Qed.

(** The filename [extract_filename] returns is non-empty, holds a dot and
    no slash: the last path segment when it has a dot, else
    [video_<time>.mp4]. *)
Theorem extract_filename_shape (check : string -> bool) (now : Z) (url filename : string) :
  extract_filename check now url = Ok filename ->
  filename <> "" /\ contains "." filename = true /\ contains "/" filename = false.
Proof. apply extract_filename_props. Qed.

(** ** Sample instances of the properties *)

Lemma download_http_fails_without_writing_witness :
  (exists code, status_code (http_get (offline_tools not_found_response) Direct
                               "https://example.com/v.mp4") = Some code /\ 400 <= code < 600)
  /\ download_http (offline_tools not_found_response) Direct "https://example.com/v.mp4"
       sample_path sample_world
     = (Ok None, mkWorld (files sample_world) (dirs sample_world) (locked sample_world)
                   (attempts sample_world ++ [(Direct, None)])).
Proof.
  assert (H : exists code, status_code (http_get (offline_tools not_found_response) Direct
                "https://example.com/v.mp4") = Some code /\ 400 <= code < 600)
    by (exists 404; split; [reflexivity|lia]).
  split; [exact H|]. apply download_http_fails_without_writing. right. left. exact H.
Defined.

Lemma download_http_writes_body_witness :
  status_code (http_get (offline_tools ok_response) Direct "https://example.com/v.mp4") = Some 200
  /\ ~ (400 <= 200 < 600)
  /\ content_length_ok (http_get (offline_tools ok_response) Direct "https://example.com/v.mp4") = true
  /\ (sample_path ∉ locked sample_world)
  /\ download_http (offline_tools ok_response) Direct "https://example.com/v.mp4" sample_path sample_world
     = (Ok (Some sample_path),
        mkWorld (<[sample_path := [Byte.x30; Byte.x31]]> (files sample_world))
          (dirs sample_world) (locked sample_world) (attempts sample_world ++ [(Direct, Some sample_path)])).
Proof.
  assert (Hl : sample_path ∉ locked sample_world) by (cbn [sample_world locked]; set_solver).
  split; [reflexivity|]. split; [lia|]. split; [reflexivity|]. split; [exact Hl|].
  exact (download_http_writes_body (offline_tools ok_response) Direct "https://example.com/v.mp4"
           sample_path sample_world 200 eq_refl ltac:(lia) eq_refl Hl).
Defined.

Lemma download_with_tool_no_result_witness :
  tool_works (offline_tools not_found_response) YtDlp = false
  /\ download_with_tool (offline_tools not_found_response) YtDlp ytdlp_exts
       "https://example.com/v.mp4" sample_downloads_dir sample_world
     = (Ok None, mkWorld (files sample_world) (dirs sample_world) (locked sample_world)
                   (attempts sample_world ++ [(YtDlp, None)])).
Proof.
  split; [reflexivity|].
  exact (download_with_tool_no_result (offline_tools not_found_response) YtDlp ytdlp_exts
           "https://example.com/v.mp4" sample_downloads_dir sample_world (or_introl eq_refl)).
Defined.

Lemma download_with_tool_result_witness :
  let w1 := (download_with_tool ytdlp_ok YtDlp ytdlp_exts "https://example.com/v"
               sample_downloads_dir sample_world).2 in
  download_with_tool ytdlp_ok YtDlp ytdlp_exts "https://example.com/v" sample_downloads_dir
    sample_world = (Ok (Some (path_join sample_downloads_dir "clip.mp4")), w1)
  /\ (tool_works ytdlp_ok YtDlp = true /\ returncode (run_tool ytdlp_ok YtDlp "https://example.com/v") = Some 0
      /\ exists name, path_join sample_downloads_dir "clip.mp4" = path_join sample_downloads_dir name
         /\ existsb (endswith name) ytdlp_exts = true
         /\ name <> "" /\ contains "/" name = false
         /\ path_exists (path_join sample_downloads_dir "clip.mp4") w1 = true).
Proof.
  intros w1.
  assert (E : download_with_tool ytdlp_ok YtDlp ytdlp_exts "https://example.com/v"
                sample_downloads_dir sample_world
              = (Ok (Some (path_join sample_downloads_dir "clip.mp4")), w1)).
  { unfold w1. vm_compute. reflexivity. }
  split; [exact E|]. exact (download_with_tool_result _ _ _ _ _ _ _ _ E).
Defined.

Lemma split_large_file_zero_chunk_witness :
  files (world_with sample_path big_file ∅) !! sample_path = Some big_file
  /\ MAX_FILE_SIZE < Z.of_nat (length big_file)
  /\ split_large_file sample_path 0 (world_with sample_path big_file ∅)
     = (Ok [], world_with sample_path big_file ∅).
Proof.
  assert (H1 : MAX_FILE_SIZE < Z.of_nat (length big_file)) by (rewrite big_file_length; lia).
  split; [apply world_with_lookup|]. split; [exact H1|].
  exact (split_large_file_zero_chunk _ sample_path big_file (world_with_lookup _ _ _) H1).
Defined.

Lemma split_large_file_negative_chunk_witness :
  files (world_with sample_path big_file ∅) !! sample_path = Some big_file
  /\ MAX_FILE_SIZE < Z.of_nat (length big_file)
  /\ -1 < 0
  /\ (part_name sample_path 0 ∉ locked (world_with sample_path big_file ∅))
  /\ split_large_file sample_path (-1) (world_with sample_path big_file ∅)
     = (Ok [part_name sample_path 0],
        mkWorld (<[part_name sample_path 0 := big_file]> (files (world_with sample_path big_file ∅)))
          (dirs (world_with sample_path big_file ∅)) (locked (world_with sample_path big_file ∅))
          (attempts (world_with sample_path big_file ∅))).
Proof.
  assert (H1 : MAX_FILE_SIZE < Z.of_nat (length big_file)) by (rewrite big_file_length; lia).
  assert (Hl : part_name sample_path 0 ∉ locked (world_with sample_path big_file ∅))
    by (change (locked (world_with sample_path big_file ∅)) with (∅ : gset string);
        apply not_elem_of_empty).
  split; [apply world_with_lookup|]. split; [exact H1|]. split; [lia|]. split; [exact Hl|].
  exact (split_large_file_negative_chunk _ sample_path big_file (-1) (world_with_lookup _ _ _)
           H1 ltac:(lia) Hl).
Defined.

Lemma cleanup_all_outside_witness :
  under sample_temp_dir "/home/user/keep.mp4" = false
  /\ (let w' := (cleanup_all sample_temp_dir sample_workspace).2 in
      files w' !! "/home/user/keep.mp4" = files sample_workspace !! "/home/user/keep.mp4"
      /\ ("/home/user/keep.mp4" <> sample_temp_dir ->
          ("/home/user/keep.mp4" ∈ dirs w' <-> "/home/user/keep.mp4" ∈ dirs sample_workspace))
      /\ locked w' = locked sample_workspace /\ attempts w' = attempts sample_workspace).
Proof.
  split; [reflexivity|].
  exact (cleanup_all_outside sample_temp_dir sample_workspace "/home/user/keep.mp4" eq_refl).
Defined.

Lemma cleanup_all_removes_tree_witness :
  (sample_temp_dir ∉ locked sample_workspace)
  /\ (forall q, under sample_temp_dir q = true -> q ∉ locked sample_workspace)
  /\ (forall q, under sample_temp_dir q = true -> path_exists q sample_workspace = true ->
        sample_temp_dir ∈ dirs sample_workspace)
  /\ (let w' := (cleanup_all sample_temp_dir sample_workspace).2 in
      (sample_temp_dir ∉ dirs w')
      /\ (forall q, under sample_temp_dir q = true -> files w' !! q = None /\ q ∉ dirs w')).
Proof.
  assert (H1 : forall q, under sample_temp_dir q = true -> q ∉ locked sample_workspace)
    by (intros q _; cbn [sample_workspace locked]; set_solver).
  assert (H2 : forall q, under sample_temp_dir q = true -> path_exists q sample_workspace = true ->
                 sample_temp_dir ∈ dirs sample_workspace)
    by (intros q _ _; cbn [sample_workspace dirs]; set_solver).
  assert (H0 : sample_temp_dir ∉ locked sample_workspace)
    by (cbn [sample_workspace locked]; set_solver).
  split; [exact H0|]. split; [exact H1|]. split; [exact H2|].
  exact (cleanup_all_removes_tree sample_temp_dir sample_workspace H0 H1 H2).
Defined.

Lemma is_video_url_shape_witness :
  scheme_ok "https" = true /\ netloc_ok "cdn.example.com" = true /\ path_ok "/clips/a.MP4" = true
  /\ tail_ok "?t=3" = true
  /\ is_video_url (fun _ => true) ("https" +:+ "://" +:+ "cdn.example.com" +:+ "/clips/a.MP4" +:+ "?t=3")
     = Ok (existsb (fun platform => contains platform (lower "cdn.example.com")) video_platforms
           || existsb (fun ext => endswith (lower "/clips/a.MP4") ext) video_extensions).
Proof.
  split; [reflexivity|]. split; [reflexivity|]. split; [reflexivity|]. split; [reflexivity|].
  exact (is_video_url_shape (fun _ => true) "https" "cdn.example.com" "/clips/a.MP4" "?t=3"
           eq_refl eq_refl eq_refl eq_refl).
Defined.

Lemma extract_filename_shape_witness :
  extract_filename (fun _ => true) 1700000000 "https://example.com/watch?v=1"
    = Ok "video_1700000000.mp4"
  /\ ("video_1700000000.mp4" <> "" /\ contains "." "video_1700000000.mp4" = true
      /\ contains "/" "video_1700000000.mp4" = false).
Proof.
  assert (E : extract_filename (fun _ => true) 1700000000 "https://example.com/watch?v=1"
                = Ok "video_1700000000.mp4") by (vm_compute; reflexivity).
  split; [exact E|]. exact (extract_filename_shape _ _ _ _ E).
Defined.

Lemma handler_filename_video_witness :
  handler_filename (fun _ => true) 1700000000 "https://example.com/files/movie.txt"
    = Ok "movie.txt.mp4"
  /\ ("movie.txt.mp4" <> "" /\ contains "/" "movie.txt.mp4" = false
      /\ existsb (fun ext => endswith (lower "movie.txt.mp4") ext) video_extensions = true).
Proof.
  assert (E : handler_filename (fun _ => true) 1700000000 "https://example.com/files/movie.txt"
                = Ok "movie.txt.mp4") by (vm_compute; reflexivity).
  split; [exact E|]. exact (handler_filename_video _ _ _ _ E).
Defined.

Lemma get_platform_type_instagram_witness :
  str_forallb (fun c => negb (unsafe_url_byte c)) "https://www.instagram.com/reel/abc/" = true
  /\ get_platform_type (fun _ => true) "https://www.instagram.com/reel/abc/" = Ok "instagram"
  /\ (is_video_platform (fun _ => true) "https://www.instagram.com/reel/abc/" = Ok true
      /\ contains "instagram.com" (lower "https://www.instagram.com/reel/abc/") = true).
Proof.
  assert (E1 : str_forallb (fun c => negb (unsafe_url_byte c)) "https://www.instagram.com/reel/abc/"
                 = true) by (vm_compute; reflexivity).
  assert (E2 : get_platform_type (fun _ => true) "https://www.instagram.com/reel/abc/"
                 = Ok "instagram") by (vm_compute; reflexivity).
  split; [exact E1|]. split; [exact E2|].
  exact (get_platform_type_instagram _ _ E1 E2).
Defined.

Lemma handler_rejects_non_http_witness :
  String.prefix "http://" (py_strip " ftp://example.com/v.mp4") = false
  /\ String.prefix "https://" (py_strip " ftp://example.com/v.mp4") = false
  /\ handler (fun _ => true) (fun _ => false) (offline_tools not_found_response) sample_temp_dir
       " ftp://example.com/v.mp4" (sample_world, [])
     = (Ok tt, (sample_world, [InvalidUrl])).
Proof.
  assert (E1 : String.prefix "http://" (py_strip " ftp://example.com/v.mp4") = false)
    by (vm_compute; reflexivity).
  assert (E2 : String.prefix "https://" (py_strip " ftp://example.com/v.mp4") = false)
    by (vm_compute; reflexivity).
  split; [exact E1|]. split; [exact E2|].
  exact (handler_rejects_non_http (fun _ => true) (fun _ => false) (offline_tools not_found_response)
           sample_temp_dir " ftp://example.com/v.mp4" (sample_world, []) E1 E2).
Defined.

Lemma handler_removes_temp_dir_witness :
  (String.prefix "http://" (py_strip " https://example.com/v.mp4\n")
   || String.prefix "https://" (py_strip " https://example.com/v.mp4\n")) = true
  /\ (fun _ : message => false) Analyzing = false
  /\ (forall q, under sample_temp_dir q = true -> q ∉ locked bare_world)
  /\ sample_temp_dir <> "" /\ endswith sample_temp_dir "/" = false
  /\ (forall q, q = sample_temp_dir \/ under sample_temp_dir q = true -> path_exists q bare_world = false)
  /\ (let w' := (handler (fun _ => true) (fun _ => false) (offline_tools empty_body_response)
                   sample_temp_dir " https://example.com/v.mp4\n" (bare_world, [])).2.1 in
      (sample_temp_dir ∉ dirs w')
      /\ (forall q, under sample_temp_dir q = true -> files w' !! q = None /\ q ∉ dirs w')
      /\ locked w' = locked bare_world).
Proof.
  assert (E : (String.prefix "http://" (py_strip " https://example.com/v.mp4\n")
               || String.prefix "https://" (py_strip " https://example.com/v.mp4\n")) = true)
    by (vm_compute; reflexivity).
  assert (Hl : forall q, under sample_temp_dir q = true -> q ∉ locked bare_world)
    by (intros q _; apply not_elem_of_empty).
  assert (Hn : sample_temp_dir <> "") by discriminate.
  assert (He : endswith sample_temp_dir "/" = false) by reflexivity.
  assert (Hf : forall q, q = sample_temp_dir \/ under sample_temp_dir q = true ->
                 path_exists q bare_world = false).
  { intros q _. unfold path_exists. apply orb_false_iff. split; apply bool_decide_eq_false.
    - apply not_elem_of_empty.
    - cbn [files bare_world]. rewrite lookup_empty. intros [? ?]; discriminate. }
  split; [exact E|]. split; [reflexivity|]. split; [exact Hl|]. split; [exact Hn|].
  split; [exact He|]. split; [exact Hf|].
  exact (handler_removes_temp_dir (fun _ => true) (fun _ => false) (offline_tools empty_body_response)
           sample_temp_dir " https://example.com/v.mp4\n" bare_world [] E eq_refl Hl Hn He Hf).
Defined.

Lemma handler_analyzing_failure_keeps_temp_dir_witness :
  let tg := fun m : message => match m with Analyzing => true | _ => false end in
  (String.prefix "http://" (py_strip "https://example.com/v.mp4")
   || String.prefix "https://" (py_strip "https://example.com/v.mp4")) = true
  /\ path_exists sample_temp_dir bare_world = false /\ (sample_temp_dir ∉ locked bare_world)
  /\ (path_join sample_temp_dir "downloads" ∉ locked bare_world)
  /\ files bare_world !! path_join sample_temp_dir "downloads" = None
  /\ tg Analyzing = true
  /\ (let r := handler (fun _ => true) tg (offline_tools empty_body_response) sample_temp_dir
                 "https://example.com/v.mp4" (bare_world, []) in
      r.1 = Err (Exception "TelegramError") /\ sample_temp_dir ∈ dirs r.2.1
      /\ path_join sample_temp_dir "downloads" ∈ dirs r.2.1 /\ r.2.2 = [] ++ [Analyzing]).
Proof.
  intros tg.
  assert (E : (String.prefix "http://" (py_strip "https://example.com/v.mp4")
               || String.prefix "https://" (py_strip "https://example.com/v.mp4")) = true)
    by (vm_compute; reflexivity).
  assert (H1 : path_exists sample_temp_dir bare_world = false) by reflexivity.
  assert (H2 : sample_temp_dir ∉ locked bare_world) by apply not_elem_of_empty.
  assert (H3 : path_join sample_temp_dir "downloads" ∉ locked bare_world) by apply not_elem_of_empty.
  assert (H4 : files bare_world !! path_join sample_temp_dir "downloads" = None) by reflexivity.
  split; [exact E|]. split; [exact H1|]. split; [exact H2|]. split; [exact H3|].
  split; [exact H4|]. split; [reflexivity|].
  exact (handler_analyzing_failure_keeps_temp_dir (fun _ => true) tg (offline_tools empty_body_response)
           sample_temp_dir "https://example.com/v.mp4" bare_world [] E H1 H2 H3 H4 eq_refl).
Defined.

Lemma handler_always_replies_witness :
  (forall msg : message, (fun _ : message => false) msg = false)
  /\ (String.prefix "http://" (py_strip "https://example.com/v.mp4")
      || String.prefix "https://" (py_strip "https://example.com/v.mp4")) = true
  /\ path_exists sample_temp_dir bare_world = false /\ (sample_temp_dir ∉ locked bare_world)
  /\ (path_join sample_temp_dir "downloads" ∉ locked bare_world)
  /\ files bare_world !! path_join sample_temp_dir "downloads" = None
  /\ (let r := handler (fun _ => true) (fun _ => false) (offline_tools empty_body_response)
                 sample_temp_dir "https://example.com/v.mp4" (bare_world, []) in
      r.1 = Ok tt
      /\ ((exists filename, last r.2.2 = Some (Completed filename))
          \/ (exists error, last r.2.2 = Some (DownloadFailed error)))).
Proof.
  assert (E : (String.prefix "http://" (py_strip "https://example.com/v.mp4")
               || String.prefix "https://" (py_strip "https://example.com/v.mp4")) = true)
    by (vm_compute; reflexivity).
  assert (Ht : forall msg : message, (fun _ : message => false) msg = false) by (intros; reflexivity).
  assert (H1 : path_exists sample_temp_dir bare_world = false) by reflexivity.
  assert (H2 : sample_temp_dir ∉ locked bare_world) by apply not_elem_of_empty.
  assert (H3 : path_join sample_temp_dir "downloads" ∉ locked bare_world) by apply not_elem_of_empty.
  assert (H4 : files bare_world !! path_join sample_temp_dir "downloads" = None) by reflexivity.
  split; [exact Ht|]. split; [exact E|]. split; [exact H1|]. split; [exact H2|].
  split; [exact H3|]. split; [exact H4|].
  exact (handler_always_replies (fun _ => true) (fun _ => false) (offline_tools empty_body_response)
           sample_temp_dir "https://example.com/v.mp4" bare_world [] Ht E H1 H2 H3 H4).
Defined.

